(** * The range check of the Storista popup (src/storage/popup.js)

    The popup has one click handler.  It reads three text fields
    (password, start, end), turns start and end into Numbers with
    [parseInt], walks [i] from start to end comparing [i.toString()] with
    the password, and writes a message and a colour into the [result]
    element.

    The handler works on ECMAScript values, so the embedding follows them:
    - a String is its sequence of UTF-16 code units ([list N]);
    - a Number is an IEEE 754 binary64 value.  [parseInt] and [i++] only
      ever produce NaN, the two infinities, the two zeros and integers, so
      a Number is modelled by those cases, and every arithmetic result is
      rounded to 53 significant bits, ties to even, the way binary64 does;
    - the [for] loop may run forever, so it is given a bound on the number
      of times its condition is evaluated and returns [None] when the bound
      is reached. *)

From Stdlib Require Import ZArith NArith List Bool Lia String Ascii.
From Stdlib Require Import Decimal DecimalFacts DecimalPos.
From Stdlib Require Import Floats.SpecFloat.
Import ListNotations.

Local Open Scope Z_scope.

(** ** Strings *)

Module JSString.

(** An ECMAScript String: a finite sequence of code units. *)
Definition jsstring : Type := list N.

(** A string literal of the source text (all of them are ASCII). *)
Definition lit (s : string) : jsstring :=
  List.map N_of_ascii (list_ascii_of_string s).

(** [a === b] on two Strings: same length and same code units. *)
Fixpoint strict_equal (a b : jsstring) : bool :=
  match a, b with
  | [], [] => true
  | x :: a', y :: b' => N.eqb x y && strict_equal a' b'
  | _, _ => false
  end.

(** The decimal digits of a [Decimal.uint], most significant first. *)
Fixpoint units_of_uint (d : uint) : jsstring :=
  match d with
  | Nil => []
  | D0 d' => 48%N :: units_of_uint d'
  | D1 d' => 49%N :: units_of_uint d'
  | D2 d' => 50%N :: units_of_uint d'
  | D3 d' => 51%N :: units_of_uint d'
  | D4 d' => 52%N :: units_of_uint d'
  | D5 d' => 53%N :: units_of_uint d'
  | D6 d' => 54%N :: units_of_uint d'
  | D7 d' => 55%N :: units_of_uint d'
  | D8 d' => 56%N :: units_of_uint d'
  | D9 d' => 57%N :: units_of_uint d'
  end.

(** The decimal string of a mathematical integer: ["0"], the digits of a
    positive integer without leading zeros, or ["-"] and those digits. *)
Definition decimal (z : Z) : jsstring :=
  match z with
  | Z0 => [48%N]
  | Zpos p => units_of_uint (Pos.to_uint p)
  | Zneg p => 45%N :: units_of_uint (Pos.to_uint p)
  end.

End JSString.
Import JSString.

(** ** Numbers *)

Module Number.

(** The Number values the handler can hold.  [Fin z] is the finite value
    [z], an integer; [Fin 0] is +0 and [NegZero] is -0.  The handler only
    builds a [Fin z] through [of_integer], so [z] is always an integer
    that binary64 represents. *)
Inductive number : Type :=
| NaN
| Infinity (negative : bool)
| NegZero
| Fin (z : Z).

(** Rounding of a positive integer to 53 significant bits, to nearest,
    ties to the even significand. *)
Definition round53 (p : Z) : Z :=
  let sh := Z.log2 p - 52 in
  if sh <=? 0 then p
  else
    let q := Z.shiftr p sh in
    let r := p mod 2 ^ sh in
    let half := 2 ^ (sh - 1) in
    let q' := if (half <? r) || ((r =? half) && Z.odd q) then q + 1 else q in
    Z.shiftl q' sh.

(** The Number value for a mathematical integer [x]: [x] rounded to
    binary64, an infinity when the rounded magnitude reaches 2^1024. *)
Definition of_integer (x : Z) : number :=
  let m := round53 (Z.abs x) in
  if 2 ^ 1024 <=? m then Infinity (x <? 0) else Fin (Z.sgn x * m).

(** [isNaN(x)] *)
Definition isNaN (x : number) : bool :=
  match x with NaN => true | _ => false end.

(** [i++] leaves [i + 1] in [i]: the exact sum, rounded.  -1 + 1 is +0,
    -0 + 1 is 1, and an infinity stays what it is. *)
Definition increment (i : number) : number :=
  match i with
  | NaN => NaN
  | Infinity s => Infinity s
  | NegZero => Fin 1
  | Fin z => of_integer (z + 1)
  end.

(** [a <= b]: false when either side is NaN; -0 and +0 compare equal. *)
Definition le (a b : number) : bool :=
  match a, b with
  | NaN, _ | _, NaN => false
  | Infinity true, _ => true
  | _, Infinity false => true
  | Infinity false, _ => false
  | _, Infinity true => false
  | NegZero, NegZero => true
  | NegZero, Fin y => 0 <=? y
  | Fin x, NegZero => x <=? 0
  | Fin x, Fin y => x <=? y
  end.

(** The mathematical value of a finite Number. *)
Definition to_Z (x : number) : option Z :=
  match x with
  | Fin z => Some z
  | NegZero => Some 0
  | _ => None
  end.

End Number.
Import Number.

(** ** parseInt(string), called with one argument *)

Module ParseInt.

(** WhiteSpace and LineTerminator code units, removed by TrimString. *)
Definition is_white_space (c : N) : bool :=
  ((9 <=? c) && (c <=? 13) || (c =? 32) || (c =? 160) || (c =? 5760)
   || (8192 <=? c) && (c <=? 8202) || (c =? 8232) || (c =? 8233)
   || (c =? 8239) || (c =? 8287) || (c =? 12288) || (c =? 65279))%N.

Fixpoint trim_start (s : jsstring) : jsstring :=
  match s with
  | c :: s' => if is_white_space c then trim_start s' else s
  | [] => []
  end.

(** The value of a digit or letter as a digit, whatever the radix. *)
Definition digit_value (c : N) : option Z :=
  if ((48 <=? c) && (c <=? 57))%N then Some (Z.of_N c - 48)
  else if ((97 <=? c) && (c <=? 122))%N then Some (Z.of_N c - 87)
  else if ((65 <=? c) && (c <=? 90))%N then Some (Z.of_N c - 55)
  else None.

Definition radix_digit (R : Z) (c : N) : option Z :=
  match digit_value c with
  | Some d => if d <? R then Some d else None
  | None => None
  end.

(** The digits of [s] up to its first code unit that is not a radix-[R]
    digit. *)
Fixpoint leading_digits (R : Z) (s : jsstring) : list Z :=
  match s with
  | c :: s' =>
      match radix_digit R c with
      | Some d => d :: leading_digits R s'
      | None => []
      end
  | [] => []
  end.

(** The integer written by the digits [ds] in radix [R]. *)
Definition math_int (R : Z) (ds : list Z) : Z :=
  fold_left (fun acc d => acc * R + d) ds 0.

(** The sign taken from the first code unit. *)
Definition sign_of (s : jsstring) : Z :=
  match s with
  | c :: _ => if (c =? 45)%N then -1 else 1
  | [] => 1
  end.

Definition strip_sign (s : jsstring) : jsstring :=
  match s with
  | c :: rest => if ((c =? 43) || (c =? 45))%N then rest else s
  | [] => []
  end.

(** Radix 10, or 16 after a leading [0x] or [0X], which is removed. *)
Definition strip_prefix (s : jsstring) : Z * jsstring :=
  match s with
  | z :: c :: rest =>
      if ((z =? 48) && ((c =? 120) || (c =? 88)))%N then (16, rest)
      else (10, s)
  | _ => (10, s)
  end.

(** [parseInt(string)] with no radix: trim, read the sign, pick the
    radix, read the digits, and return NaN when there is none, a zero
    with the sign of the text when the digits are worth 0, and otherwise
    the Number for the signed value.  (For more than 20 significant
    decimal digits ECMAScript lets an implementation replace the later
    ones by 0; the exact value is taken here.) *)
Definition parseInt (string : jsstring) : number :=
  let trimmed := trim_start string in
  let sign := sign_of trimmed in
  let '(R, rest) := strip_prefix (strip_sign trimmed) in
  match leading_digits R rest with
  | [] => NaN
  | ds =>
      let mathInt := math_int R ds in
      if mathInt =? 0 then (if sign =? -1 then NegZero else Fin 0)
      else of_integer (sign * mathInt)
  end.

End ParseInt.
Import ParseInt.

(** ** Number.prototype.toString(), radix 10 *)

Module ToString.

(** [true] when the mathematical integer [v] rounds to the finite
    Number [x]. *)
Definition rounds_to (v x : Z) : bool :=
  match of_integer v with
  | Fin y => y =? x
  | _ => false
  end.

(** Number::toString takes integers [n], [k], [s] with [k] as small as
    possible such that [s] has [k] digits and [s * 10^(n-k)] rounds to
    [x].  For an integer [x] > 0 such a value is an integer [v] itself.
    [shortest j x] tries the two multiples of [10^j] around [x], then
    those of [10^(j-1)], and so on down to the multiples of 1; started at
    [j] = (number of digits of [x]) - 1 it returns [v].  When both
    multiples round to [x] the nearer one is taken, and the one with the
    even [s] when they are equally near (the choice ECMAScript recommends
    and leaves to the implementation). *)
Fixpoint shortest (j : nat) (x : Z) : Z :=
  let p := 10 ^ Z.of_nat j in
  let lo := (x / p) * p in
  let hi := lo + p in
  match rounds_to lo x, rounds_to hi x with
  | true, true =>
      if x - lo <? hi - x then lo
      else if hi - x <? x - lo then hi
      else if Z.even (x / p) then lo else hi
  | true, false => lo
  | false, true => hi
  | false, false =>
      match j with
      | O => x
      | S j' => shortest j' x
      end
  end.

Fixpoint drop_zeros (s : jsstring) : jsstring :=
  match s with
  | c :: s' => if (c =? 48)%N then drop_zeros s' else s
  | [] => []
  end.

(** The digits of [s] in [s * 10^(n-k)]: the digits of [v] without the
    zeros that end it. *)
Definition significant (ds : jsstring) : jsstring :=
  List.rev (drop_zeros (List.rev ds)).

(** The String for a finite Number [x] > 0, where [n] is the number of
    digits of [v]: the digits of [v] when [n <= 21], that is when
    [v < 10^21], and otherwise the digits of [s], with a point after the
    first one when there are several, then [e+] and [n - 1]. *)
Definition positive_to_string (x : Z) : jsstring :=
  let v := shortest (List.length (decimal x) - 1) x in
  let ds := decimal v in
  let n := List.length ds in
  if v <? 10 ^ 21 then ds
  else
    match significant ds with
    | [] => []
    | d :: more =>
        d :: (match more with [] => [] | _ => 46%N :: more end)
          ++ lit "e+" ++ decimal (Z.of_nat n - 1)
    end.

Definition toString (x : number) : jsstring :=
  match x with
  | NaN => lit "NaN"
  | Infinity false => lit "Infinity"
  | Infinity true => lit "-Infinity"
  | NegZero => lit "0"
  | Fin Z0 => lit "0"
  | Fin (Zpos p) => positive_to_string (Zpos p)
  | Fin (Zneg p) => lit "-" ++ positive_to_string (Zpos p)
  end.

End ToString.
Import ToString.

(** ** The click handler *)

Module Popup.

(** The element with id [result]: its text and its [style.color]. *)
Record element : Type := {
  textContent : jsstring;
  color : jsstring
}.

(** The part of the document the handler touches: the [value] of the
    three input fields and the result element. *)
Record document : Type := {
  password_value : jsstring;
  start_value : jsstring;
  end_value : jsstring;
  result : element
}.

Definition set_result (doc : document) (text colour : jsstring) : document :=
  {| password_value := password_value doc;
     start_value := start_value doc;
     end_value := end_value doc;
     result := {| textContent := text; color := colour |} |}.

Definition invalid_range : jsstring := lit "Invalid range".
Definition within_range : jsstring := lit "Password is within range ?".
Definition not_in_range : jsstring := lit "Password NOT in range ?".
Definition red : jsstring := lit "red".
Definition green : jsstring := lit "green".

(** The [for] loop, entered with [i] at its current value.  It returns
    the final [found] and the number of times the body ran, or [None]
    when the condition was evaluated [fuel] times without the loop
    ending. *)
Fixpoint scan (fuel : nat) (i end_ : number) (password : jsstring)
  : option (bool * nat) :=
  match fuel with
  | O => None
  | S fuel' =>
      if le i end_ then
        if strict_equal (toString i) password then Some (true, 1%nat)
        else
          match scan fuel' (increment i) end_ password with
          | Some (found, n) => Some (found, S n)
          | None => None
          end
      else Some (false, 0%nat)
  end.

(** One run of the listener: the document it leaves and the number of
    loop iterations it made. *)
Definition on_click (fuel : nat) (doc : document) : option (document * nat) :=
  let password := password_value doc in
  let start := parseInt (start_value doc) in
  let end_ := parseInt (end_value doc) in
  if isNaN start || isNaN end_ then
    Some (set_result doc invalid_range red, 0%nat)
  else
    match scan fuel start end_ password with
    | None => None
    | Some (found, n) =>
        if found then Some (set_result doc within_range green, n)
        else Some (set_result doc not_in_range red, n)
    end.

(** The document before a click: the three fields as typed and a result
    element that is still empty. *)
Definition typed (password start end_ : string) : document :=
  {| password_value := lit password;
     start_value := lit start;
     end_value := lit end_;
     result := {| textContent := []; color := [] |} |}.

End Popup.
Import Popup.

(** ** Definitions used to state the properties *)

Module Spec.

(** Membership as the specification words it: some integer [i] with
    [a <= i <= b] has [password] as its decimal string. *)
Definition in_range (a b : Z) (password : jsstring) : Prop :=
  exists i : Z, a <= i <= b /\ decimal i = password.

Definition is_decimal_digit (c : N) : bool :=
  ((48 <=? c) && (c <=? 57))%N.

(** A well-formed base-10 integer string: an optional sign and then one
    or more decimal digits, nothing else. *)
Definition well_formed_integer (s : jsstring) : bool :=
  match s with
  | [] => false
  | c :: rest =>
      if ((c =? 43) || (c =? 45))%N then
        match rest with
        | [] => false
        | _ => forallb is_decimal_digit rest
        end
      else forallb is_decimal_digit s
  end.

Definition unsigned_value (s : jsstring) : Z :=
  fold_left (fun acc c => acc * 10 + (Z.of_N c - 48)) s 0.

(** The base-10 value of a well-formed integer string. *)
Definition integer_value (s : jsstring) : Z :=
  match s with
  | c :: rest =>
      if (c =? 45)%N then - unsigned_value rest
      else if (c =? 43)%N then unsigned_value rest
      else unsigned_value s
  | [] => 0
  end.

(** What [parseInt] needs to return a number: after white space, a sign
    and a [0x] prefix, the text starts with a digit of the radix. *)
Definition starts_with_digits (s : jsstring) : bool :=
  let '(R, rest) := strip_prefix (strip_sign (trim_start s)) in
  match leading_digits R rest with
  | [] => false
  | _ => true
  end.

(** The first integer that binary64 cannot tell from its successor. *)
Definition limit : Z := 2 ^ 53.

(** The binary64 value of a Number of the model, in the IEEE 754
    specification of the Standard Library. *)
Definition binary64 (x : number) : spec_float :=
  match x with
  | NaN => S754_nan
  | Infinity s => S754_infinity s
  | NegZero => S754_zero true
  | Fin z => binary_normalize 53 1024 z 0 false
  end.

(** The Number of the model for a binary64 value that is an integer,
    an infinity, a zero or NaN. *)
Definition of_binary64 (f : spec_float) : number :=
  match f with
  | S754_nan => NaN
  | S754_infinity s => Infinity s
  | S754_zero s => if s then NegZero else Fin 0
  | S754_finite s m e =>
      let magnitude :=
        if 0 <=? e then Zpos m * 2 ^ e else Zpos m / 2 ^ (- e) in
      Fin (if s then - magnitude else magnitude)
  end.

End Spec.
Import Spec.

(** ** Definitions used to state further properties *)

Module View.

(** What a run leaves to be seen: the result element and the number of
    iterations made, or nothing when the run did not end. *)
Definition shown (r : option (document * nat)) : option (element * nat) :=
  match r with
  | Some (doc, n) => Some (result doc, n)
  | None => None
  end.

(** The document in which the three fields hold the decimal strings of
    the integers [z] (password), [a] (start) and [b] (end). *)
Definition canonical (z a b : Z) : document :=
  {| password_value := decimal z;
     start_value := decimal a;
     end_value := decimal b;
     result := {| textContent := []; color := [] |} |}.

(** The values [i] takes in the loop: [start] after [k] executions of
    [i++]. *)
Definition after (k : nat) (start : number) : number :=
  Nat.iter k increment start.

Definition is_hex_digit (c : N) : bool :=
  ((48 <=? c) && (c <=? 57) || (97 <=? c) && (c <=? 102)
   || (65 <=? c) && (c <=? 70))%N.

(** The value of a hexadecimal digit: 0-9, a-f or A-F. *)
Definition hex_digit (c : N) : Z :=
  if (c <=? 57)%N then Z.of_N c - 48
  else if (c <=? 70)%N then Z.of_N c - 55
  else Z.of_N c - 87.

(** The base-16 value of a string of hexadecimal digits. *)
Definition hex_value (s : jsstring) : Z :=
  fold_left (fun acc c => acc * 16 + hex_digit c) s 0.

(** Text after the digits of a bound that [parseInt] leaves unread:
    nothing, or text that starts with a code unit other than a decimal
    digit, [x] and [X]. *)
Definition unread_tail (t : jsstring) : bool :=
  match t with
  | [] => true
  | c :: _ =>
      negb (is_decimal_digit c) && negb (c =? 120)%N && negb (c =? 88)%N
  end.

End View.
Import View.

(** ** Agreement of the Number model with IEEE 754 binary64 *)

Module IEEE.

Definition integers : list Z :=
  [0; 1; -1; 2 ^ 53 - 1; 2 ^ 53; 2 ^ 53 + 1; 2 ^ 53 + 2; 2 ^ 53 + 3;
   - (2 ^ 53 + 1); 2 ^ 54 + 2; 2 ^ 54 + 6; 2 ^ 60 + 2 ^ 7 + 1; 10 ^ 23;
   2 ^ 1024 - 2 ^ 970 - 1; 2 ^ 1024 - 2 ^ 970; - 10 ^ 400].

Definition numbers : list number :=
  [Fin 0; NegZero; Fin (-1); Fin 41; Fin (2 ^ 53 - 1); Fin (2 ^ 53);
   Fin (2 ^ 53 + 2); Fin (2 ^ 53 + 4); Fin (- 2 ^ 53 - 2);
   Fin (- 2 ^ 53 - 4); Fin (2 ^ 60); Fin (2 ^ 1024 - 2 ^ 971);
   Infinity false; Infinity true; NaN].

(** Rounding an integer in the model gives the value that the Standard
    Library's binary64 rounding gives: below and at 2^53, at ties, and
    around the overflow threshold. *)
Example of_integer_is_binary64 :
  List.map of_integer integers
  = List.map (fun v => of_binary64 (binary_normalize 53 1024 v 0 false))
      integers.
Proof. vm_compute. reflexivity. Qed.

(** The sample Numbers are binary64 values. *)
Example numbers_are_binary64 :
  List.map (fun x => of_binary64 (binary64 x)) numbers = numbers.
Proof. vm_compute. reflexivity. Qed.

(** [i++] in the model is binary64 addition of 1. *)
Example increment_is_binary64_add :
  List.map increment numbers
  = List.map
      (fun i => of_binary64 (SFadd 53 1024 (binary64 i) (binary64 (Fin 1))))
      numbers.
Proof. vm_compute. reflexivity. Qed.

(** [<=] in the model is binary64 comparison. *)
Example le_is_binary64_leb :
  List.map (fun a => List.map (le a) numbers) numbers
  = List.map
      (fun a => List.map (fun b => SFleb (binary64 a) (binary64 b)) numbers)
      numbers.
Proof. vm_compute. reflexivity. Qed.

End IEEE.

(** ** Numbers up to 2^53 are exact *)

Module NumberFacts.

Lemma limit_value : limit = 9007199254740992.
Proof. reflexivity. Qed.

Lemma round53_small (p : Z) : 0 <= p < limit -> round53 p = p.
Proof.
  intros [H0 H1]. unfold round53.
  assert (Z.log2 p - 52 <= 0) as Hsh.
  { destruct (Z.eq_dec p 0) as [-> | Hp]; [simpl; lia |].
    assert (Z.log2 p < 53) by (apply Z.log2_lt_pow2; [lia | exact H1]).
    lia. }
  destruct (Z.leb_spec (Z.log2 p - 52) 0); [reflexivity | lia].
Qed.

Lemma round53_large (p : Z) : limit <= p -> limit <= round53 p.
Proof.
  intros Hp. unfold round53.
  assert (0 < p) as Hpos by (rewrite limit_value in Hp; lia).
  assert (53 <= Z.log2 p) as Hlog by (apply Z.log2_le_pow2; [exact Hpos | exact Hp]).
  destruct (Z.leb_spec (Z.log2 p - 52) 0) as [Hle | Hlt]; [lia |].
  set (sh := Z.log2 p - 52) in *.
  rewrite Z.shiftl_mul_pow2 by lia.
  rewrite Z.shiftr_div_pow2 by lia.
  assert (2 ^ 52 * 2 ^ sh <= p) as Hlow.
  { rewrite <- Z.pow_add_r by lia.
    replace (52 + sh) with (Z.log2 p) by (unfold sh; lia).
    apply Z.log2_spec. exact Hpos. }
  assert (0 < 2 ^ sh) as Hpow by (apply Z.pow_pos_nonneg; lia).
  assert (2 ^ 52 <= p / 2 ^ sh) as Hq.
  { apply Z.div_le_lower_bound; [exact Hpow | lia]. }
  assert (2 <= 2 ^ sh) as H2.
  { change 2 with (2 ^ 1) at 1. apply Z.pow_le_mono_r; lia. }
  set (q := p / 2 ^ sh) in *.
  assert (2 ^ 52 * 2 <= q * 2 ^ sh) as Hprod.
  { apply Z.mul_le_mono_nonneg; lia. }
  rewrite limit_value.
  change (2 ^ 52 * 2) with 9007199254740992 in Hprod.
  destruct ((2 ^ (sh - 1) <? p mod 2 ^ sh) || ((p mod 2 ^ sh =? 2 ^ (sh - 1)) && Z.odd q)); nia.
Qed.

Lemma of_integer_below (x : Z) : - limit < x < limit -> of_integer x = Fin x.
Proof.
  intros Hx. unfold of_integer.
  rewrite round53_small by (rewrite limit_value in *; lia).
  assert (Z.abs x < 2 ^ 1024) as Hb.
  { apply Z.lt_trans with limit; [rewrite limit_value in *; lia |].
    apply Z.pow_lt_mono_r; lia. }
  destruct (Z.leb_spec (2 ^ 1024) (Z.abs x)); [lia |].
  f_equal. destruct x; simpl; lia.
Qed.

Lemma of_integer_exact (x : Z) : - limit <= x <= limit -> of_integer x = Fin x.
Proof.
  intros Hx.
  destruct (Z.eq_dec x limit) as [-> | H1]; [vm_compute; reflexivity |].
  destruct (Z.eq_dec x (- limit)) as [-> | H2]; [vm_compute; reflexivity |].
  apply of_integer_below. lia.
Qed.

Lemma increment_exact (z : Z) :
  - limit <= z < limit -> increment (Fin z) = Fin (z + 1).
Proof. intros Hz. simpl. apply of_integer_exact. lia. Qed.

Lemma rounds_to_exact (v x : Z) :
  0 <= v -> 0 < x < limit -> rounds_to v x = true -> v = x.
Proof.
  intros Hv Hx. unfold rounds_to.
  destruct (Z_lt_le_dec v limit) as [Hs | Hb].
  - rewrite of_integer_below by lia. apply Z.eqb_eq.
  - unfold of_integer. rewrite Z.abs_eq by lia.
    pose proof (round53_large v Hb) as Hr.
    destruct (2 ^ 1024 <=? round53 v); [discriminate |].
    intros Heq. apply Z.eqb_eq in Heq.
    assert (Z.sgn v = 1) as Hs by (apply Z.sgn_pos; rewrite limit_value in Hb; lia).
    rewrite Hs in Heq. lia.
Qed.

End NumberFacts.

(** ** Strings of integers *)

Module StringFacts.

Lemma strict_equal_true (a b : jsstring) : strict_equal a b = true <-> a = b.
Proof.
  revert b. induction a as [| x a IH]; intros [| y b]; simpl;
    try (split; [discriminate | discriminate]); [tauto |].
  rewrite andb_true_iff, N.eqb_eq, IH. split.
  - intros [-> ->]. reflexivity.
  - intros H. injection H as -> ->. tauto.
Qed.

Lemma strict_equal_false (a b : jsstring) : strict_equal a b = false <-> a <> b.
Proof.
  rewrite <- strict_equal_true. destruct (strict_equal a b); split;
    congruence.
Qed.

Lemma nzhead_no_zero (d d' : uint) : nzhead d <> D0 d'.
Proof. induction d; simpl; try discriminate. exact IHd. Qed.

Lemma unorm_zero_head (d d' : uint) : unorm d = D0 d' -> unorm d = zero.
Proof.
  unfold unorm. pose proof (nzhead_no_zero d d') as Hn.
  destruct (nzhead d); try reflexivity; congruence.
Qed.

Lemma to_uint_normal (p : positive) : unorm (Pos.to_uint p) = Pos.to_uint p.
Proof.
  change (Pos.to_uint p) with (N.to_uint (Npos p)) at 2.
  rewrite <- (DecimalPos.Unsigned.of_to p).
  apply eq_sym, DecimalPos.Unsigned.to_of.
Qed.

Lemma to_uint_no_zero_head (p : positive) (d' : uint) : Pos.to_uint p <> D0 d'.
Proof.
  intros H. apply (DecimalPos.Unsigned.to_uint_nonzero p).
  rewrite <- to_uint_normal. apply unorm_zero_head with d'.
  rewrite to_uint_normal. exact H.
Qed.

Lemma units_zero_head (d : uint) (rest : jsstring) :
  units_of_uint d = 48%N :: rest -> exists d', d = D0 d'.
Proof. destruct d; simpl; try discriminate. intros _. eexists; reflexivity. Qed.

(** The digits of a positive integer start with a digit, and it is not 0. *)
Lemma positive_digits (p : positive) :
  exists d more, decimal (Zpos p) = d :: more /\ d <> 48%N.
Proof.
  simpl. pose proof (to_uint_no_zero_head p) as Hz.
  pose proof (DecimalPos.Unsigned.to_uint_nonnil p) as Hn.
  destruct (Pos.to_uint p) as [| u | u | u | u | u | u | u | u | u | u];
    simpl;
    [ congruence | exfalso; exact (Hz u eq_refl) | .. ];
    eexists; eexists; (split; [reflexivity | discriminate]).
Qed.

(** No integer has a decimal string made of a 0 and further characters. *)
Lemma decimal_no_leading_zero (z : Z) (c : N) (rest : jsstring) :
  decimal z <> 48%N :: c :: rest.
Proof.
  destruct z as [| p | p].
  - discriminate.
  - destruct (positive_digits p) as (d & more & Heq & Hd).
    rewrite Heq. congruence.
  - discriminate.
Qed.

Lemma units_injective (d1 d2 : uint) :
  units_of_uint d1 = units_of_uint d2 -> d1 = d2.
Proof.
  revert d2. induction d1 as [| d1 IH | d1 IH | d1 IH | d1 IH | d1 IH
                              | d1 IH | d1 IH | d1 IH | d1 IH | d1 IH];
    intros [| d2 | d2 | d2 | d2 | d2 | d2 | d2 | d2 | d2 | d2]; simpl;
    try discriminate; try reflexivity;
    intros [= H]; f_equal; apply IH; exact H.
Qed.

Lemma units_no_minus (d : uint) (rest : jsstring) :
  units_of_uint d <> 45%N :: rest.
Proof. destruct d; discriminate. Qed.

(** Different integers have different decimal strings. *)
Lemma decimal_injective (x y : Z) : decimal x = decimal y -> x = y.
Proof.
  destruct x as [| p | p], y as [| q | q]; simpl; intros H;
    try reflexivity;
    try (exfalso; exact (units_no_minus _ _ H));
    try (exfalso; exact (units_no_minus _ _ (eq_sym H))).
  - destruct (units_zero_head _ _ (eq_sym H)) as [d' Hd].
    exfalso. exact (to_uint_no_zero_head q d' Hd).
  - discriminate.
  - destruct (units_zero_head _ _ H) as [d' Hd].
    exfalso. exact (to_uint_no_zero_head p d' Hd).
  - f_equal. apply DecimalPos.Unsigned.to_uint_inj, units_injective, H.
  - discriminate.
  - injection H as H. f_equal.
    apply DecimalPos.Unsigned.to_uint_inj, units_injective, H.
Qed.

Lemma drop_zeros_last (l : jsstring) (d : N) :
  d <> 48%N -> exists l', drop_zeros (l ++ [d]) = l' ++ [d].
Proof.
  intros Hd. induction l as [| c l IH]; simpl.
  - apply N.eqb_neq in Hd. rewrite Hd. exists []. reflexivity.
  - destruct (c =? 48)%N; [exact IH |]. exists (c :: l). reflexivity.
Qed.

Lemma significant_head (d : N) (tl : jsstring) :
  d <> 48%N -> exists more, significant (d :: tl) = d :: more.
Proof.
  intros Hd. unfold significant. simpl.
  destruct (drop_zeros_last (List.rev tl) d Hd) as [l' ->].
  rewrite rev_app_distr. simpl. eexists; reflexivity.
Qed.

End StringFacts.

(** ** toString on exact integers, and leading zeros *)

Module ToStringFacts.
Import NumberFacts StringFacts.

Lemma shortest_unfold (j : nat) (x : Z) :
  shortest j x =
  let p := 10 ^ Z.of_nat j in
  let lo := (x / p) * p in
  let hi := lo + p in
  match rounds_to lo x, rounds_to hi x with
  | true, true =>
      if x - lo <? hi - x then lo
      else if hi - x <? x - lo then hi
      else if Z.even (x / p) then lo else hi
  | true, false => lo
  | false, true => hi
  | false, false =>
      match j with
      | O => x
      | S j' => shortest j' x
      end
  end.
Proof. destruct j; reflexivity. Qed.

Lemma shortest_exact (j : nat) (x : Z) : 0 < x < limit -> shortest j x = x.
Proof.
  intros Hx. induction j as [| j IH]; rewrite shortest_unfold; cbv zeta.
  all: match goal with |- context [10 ^ Z.of_nat ?k] =>
         set (p := 10 ^ Z.of_nat k);
         assert (0 < p) as Hp by (apply Z.pow_pos_nonneg; lia)
       end.
  all: assert (0 <= x / p * p) as Hlo
         by (apply Z.mul_nonneg_nonneg; [apply Z.div_pos; lia | lia]).
  all: pose proof (rounds_to_exact (x / p * p) x Hlo Hx) as Elo.
  all: pose proof (rounds_to_exact (x / p * p + p) x ltac:(lia) Hx) as Ehi.
  all: destruct (rounds_to (x / p * p) x), (rounds_to (x / p * p + p) x);
         try specialize (Elo eq_refl); try specialize (Ehi eq_refl);
         try lia; try reflexivity; try exact IH.
Qed.

Lemma positive_to_string_exact (x : Z) :
  0 < x < limit -> positive_to_string x = decimal x.
Proof.
  intros Hx. unfold positive_to_string.
  rewrite shortest_exact by exact Hx.
  assert (x < 10 ^ 21) as Hlt.
  { apply Z.lt_trans with limit; [lia | reflexivity]. }
  destruct (Z.ltb_spec x (10 ^ 21)); [reflexivity | lia].
Qed.

(** On an integer of magnitude below 2^53 [toString] is the decimal
    string; it still is at 2^53. *)
Lemma toString_exact (z : Z) : - limit < z < limit -> toString (Fin z) = decimal z.
Proof.
  intros Hz. destruct z as [| p | p].
  - reflexivity.
  - apply positive_to_string_exact. lia.
  - simpl toString. rewrite positive_to_string_exact by lia. reflexivity.
Qed.

Lemma toString_limit : toString (Fin limit) = decimal limit.
Proof. vm_compute. reflexivity. Qed.

Lemma toString_safe (i : number) (z : Z) :
  to_Z i = Some z -> - limit < z <= limit -> toString i = decimal z.
Proof.
  intros Hi Hz. destruct i; simpl in Hi; try discriminate.
  - injection Hi as <-. reflexivity.
  - injection Hi as ->.
    destruct (Z.eq_dec z limit) as [-> | Hne]; [apply toString_limit |].
    apply toString_exact. lia.
Qed.

Lemma positive_to_string_head (p : positive) (c : N) (rest : jsstring) :
  positive_to_string (Zpos p) <> 48%N :: c :: rest.
Proof.
  unfold positive_to_string.
  set (v := shortest _ _).
  destruct (Z.ltb_spec v (10 ^ 21)) as [Hlt | Hge].
  - apply decimal_no_leading_zero.
  - destruct v as [| q | q]; try (exfalso; revert Hge; clear; intros H;
      apply H; reflexivity).
    destruct (positive_digits q) as (d & more & Heq & Hd).
    rewrite Heq.
    destruct (significant_head d more Hd) as [more' ->].
    intros H. injection H as H _. exact (Hd H).
Qed.

(** [toString] never gives a 0 followed by further characters. *)
Lemma toString_no_leading_zero (x : number) (c : N) (rest : jsstring) :
  toString x <> 48%N :: c :: rest.
Proof.
  destruct x as [| [|] | | [| p | p]]; try discriminate.
  apply positive_to_string_head.
Qed.

End ToStringFacts.

(** ** parseInt on well-formed integers *)

Module ParseIntFacts.
Import NumberFacts.

(** Decides the comparisons on a code unit that is known to lie between
    two bounds. *)
Ltac code_unit_cases :=
  repeat match goal with
    | |- context [(?a <=? ?b)%N] =>
        destruct (N.leb_spec a b); try (exfalso; lia)
    | |- context [(?a =? ?b)%N] =>
        destruct (N.eqb_spec a b); try (exfalso; lia)
    end;
  simpl; try reflexivity; try lia.

Lemma digit_bounds (c : N) : is_decimal_digit c = true -> (48 <= c <= 57)%N.
Proof.
  unfold is_decimal_digit. rewrite andb_true_iff, !N.leb_le. tauto.
Qed.

Lemma digit_not_space (c : N) : is_decimal_digit c = true -> is_white_space c = false.
Proof.
  intros H. apply digit_bounds in H. unfold is_white_space. code_unit_cases.
Qed.

Lemma digit_radix10 (c : N) :
  is_decimal_digit c = true -> radix_digit 10 c = Some (Z.of_N c - 48).
Proof.
  intros H. apply digit_bounds in H. unfold radix_digit, digit_value.
  code_unit_cases.
  destruct (Z.ltb_spec (Z.of_N c - 48) 10); [reflexivity | lia].
Qed.

Lemma leading_digits_all (s : jsstring) :
  forallb is_decimal_digit s = true ->
  leading_digits 10 s = List.map (fun c => Z.of_N c - 48) s.
Proof.
  induction s as [| c s IH]; simpl; [reflexivity |].
  rewrite andb_true_iff. intros [Hc Hs].
  rewrite (digit_radix10 c Hc), (IH Hs). reflexivity.
Qed.

Lemma fold_digits (s : jsstring) (acc : Z) :
  fold_left (fun a d => a * 10 + d) (List.map (fun c => Z.of_N c - 48) s) acc
  = fold_left (fun a c => a * 10 + (Z.of_N c - 48)) s acc.
Proof.
  revert acc. induction s as [| c s IH]; intros acc; simpl;
    [reflexivity | apply IH].
Qed.

Lemma math_int_all (s : jsstring) :
  forallb is_decimal_digit s = true ->
  math_int 10 (leading_digits 10 s) = unsigned_value s.
Proof.
  intros H. rewrite (leading_digits_all s H). apply fold_digits.
Qed.

Lemma strip_prefix_all (s : jsstring) :
  forallb is_decimal_digit s = true -> strip_prefix s = (10, s).
Proof.
  destruct s as [| z [| c rest]]; try reflexivity.
  simpl. rewrite !andb_true_iff. intros (_ & Hc & _).
  apply digit_bounds in Hc. unfold strip_prefix. code_unit_cases.
Qed.

Lemma leading_digits_nonempty (s : jsstring) :
  s <> [] -> forallb is_decimal_digit s = true -> leading_digits 10 s <> [].
Proof.
  destruct s as [| c s]; [congruence |]. intros _. simpl.
  rewrite andb_true_iff. intros [Hc _].
  rewrite (digit_radix10 c Hc). discriminate.
Qed.

Lemma of_integer_not_NaN (x : Z) : of_integer x <> NaN.
Proof. unfold of_integer. destruct (2 ^ 1024 <=? _); discriminate. Qed.

(** [parseInt] gives NaN exactly when no digit is found. *)
Lemma parseInt_NaN (s : jsstring) :
  isNaN (parseInt s) = true <-> starts_with_digits s = false.
Proof.
  unfold parseInt, starts_with_digits.
  destruct (strip_prefix (strip_sign (trim_start s))) as [R rest].
  destruct (leading_digits R rest) as [| d ds]; [simpl; tauto |].
  set (m := math_int R (d :: ds)).
  split; [| discriminate].
  destruct (m =? 0).
  - destruct (sign_of (trim_start s) =? -1); discriminate.
  - pose proof (of_integer_not_NaN (sign_of (trim_start s) * m)) as Hn.
    destruct (of_integer (sign_of (trim_start s) * m)); try discriminate.
    congruence.
Qed.

(** The digits of an unsigned, well-formed string are all read, in
    base 10. *)
Lemma parse_digits (s : jsstring) :
  s <> [] -> forallb is_decimal_digit s = true ->
  strip_prefix s = (10, s) /\ leading_digits 10 s <> []
  /\ math_int 10 (leading_digits 10 s) = unsigned_value s.
Proof.
  intros Hne Hall. split; [apply strip_prefix_all; exact Hall |].
  split; [apply leading_digits_nonempty; assumption |].
  apply math_int_all; exact Hall.
Qed.

(** On a well-formed base-10 integer string [parseInt] finds digits and
    returns the Number for the string's base-10 value, -0 for a
    negative zero. *)
Lemma parseInt_well_formed (s : jsstring) :
  well_formed_integer s = true ->
  starts_with_digits s = true
  /\ (parseInt s = of_integer (integer_value s)
      \/ (parseInt s = NegZero /\ integer_value s = 0)).
Proof.
  destruct s as [| c rest]; [discriminate |].
  unfold well_formed_integer.
  destruct ((c =? 43) || (c =? 45))%N eqn:Hsign.
  - destruct rest as [| c' rest']; [discriminate |]. intros Hall.
    assert (c' :: rest' <> []) as Hne by discriminate.
    destruct (parse_digits _ Hne Hall) as (Hp & Hd & Hm).
    assert (is_white_space c = false) as Hws.
    { apply orb_true_iff in Hsign. rewrite !N.eqb_eq in Hsign.
      destruct Hsign as [-> | ->]; reflexivity. }
    unfold starts_with_digits, parseInt.
    change (trim_start (c :: c' :: rest'))
      with (if is_white_space c then trim_start (c' :: rest')
            else c :: c' :: rest').
    rewrite Hws.
    change (strip_sign (c :: c' :: rest'))
      with (if ((c =? 43) || (c =? 45))%N then c' :: rest'
            else c :: c' :: rest').
    rewrite Hsign, Hp.
    destruct (leading_digits 10 (c' :: rest')) as [| d ds] eqn:Hl;
      [congruence |].
    split; [reflexivity |].
    rewrite Hm. unfold sign_of, integer_value.
    destruct (N.eqb_spec c 45) as [-> | Hc].
    + simpl (-1 =? -1).
      destruct (Z.eqb_spec (unsigned_value (c' :: rest')) 0) as [H0 | H0].
      * right. split; [reflexivity | lia].
      * left; f_equal; lia.
    + assert ((c =? 43)%N = true) as H43
        by (rewrite orb_false_r in Hsign; exact Hsign).
      rewrite H43. simpl (1 =? -1).
      destruct (Z.eqb_spec (unsigned_value (c' :: rest')) 0) as [H0 | H0].
      * left. rewrite H0. reflexivity.
      * left; f_equal; lia.
  - intros Hall.
    assert (c :: rest <> []) as Hne by discriminate.
    destruct (parse_digits _ Hne Hall) as (Hp & Hd & Hm).
    assert (is_decimal_digit c = true) as Hc.
    { simpl in Hall. apply andb_true_iff in Hall. tauto. }
    unfold starts_with_digits, parseInt.
    change (trim_start (c :: rest))
      with (if is_white_space c then trim_start rest else c :: rest).
    rewrite (digit_not_space c Hc).
    change (strip_sign (c :: rest))
      with (if ((c =? 43) || (c =? 45))%N then rest else c :: rest).
    rewrite Hsign, Hp.
    destruct (leading_digits 10 (c :: rest)) as [| d ds] eqn:Hl;
      [congruence |].
    split; [reflexivity |].
    rewrite Hm. unfold sign_of, integer_value.
    apply orb_false_iff in Hsign. destruct Hsign as [H43 H45].
    rewrite H43, H45. simpl (1 =? -1).
    destruct (Z.eqb_spec (unsigned_value (c :: rest)) 0) as [H0 | H0].
    + left. rewrite H0. reflexivity.
    + left; f_equal; lia.
Qed.

End ParseIntFacts.

(** ** The loop *)

Module ScanFacts.
Import NumberFacts StringFacts ToStringFacts.

Lemma le_to_Z (i e : number) (a b : Z) :
  to_Z i = Some a -> to_Z e = Some b -> le i e = (a <=? b).
Proof.
  destruct i, e; simpl; try discriminate; intros [= <-] [= <-]; reflexivity.
Qed.

Lemma increment_to_Z (i : number) (a : Z) :
  to_Z i = Some a -> - limit <= a < limit -> increment i = Fin (a + 1).
Proof.
  destruct i; simpl to_Z; try discriminate; intros [= <-] Ha.
  - reflexivity.
  - apply increment_exact. exact Ha.
Qed.

Lemma toString_to_Z (i : number) (a : Z) :
  to_Z i = Some a -> - limit <= a <= limit -> toString i = decimal a.
Proof.
  intros Hi Ha.
  destruct (Z.eq_dec a (- limit)) as [-> | Hne].
  - destruct i; simpl in Hi; try discriminate; injection Hi as ->.
    vm_compute. reflexivity.
  - apply toString_safe; [exact Hi | lia].
Qed.

(** A run that ends keeps its result when the bound is raised. *)
Lemma scan_more_fuel (fuel : nat) :
  forall (i e : number) (pw : jsstring) (r : bool * nat),
    scan fuel i e pw = Some r ->
    forall fuel', (fuel <= fuel')%nat -> scan fuel' i e pw = Some r.
Proof.
  induction fuel as [| fuel IH]; intros i e pw r H fuel' Hle;
    [discriminate |].
  destruct fuel' as [| fuel']; [lia |].
  simpl in H |- *.
  destruct (le i e); [| exact H].
  destruct (strict_equal (toString i) pw); [exact H |].
  destruct (scan fuel (increment i) e pw) as [r' |] eqn:E; [| discriminate].
  rewrite (IH _ _ _ _ E fuel') by lia. exact H.
Qed.

Lemma in_range_empty (a b : Z) (pw : jsstring) : b < a -> ~ in_range a b pw.
Proof. intros Hlt (i & Hi & _). lia. Qed.

Lemma in_range_step (a b : Z) (pw : jsstring) :
  decimal a <> pw -> (in_range (a + 1) b pw <-> in_range a b pw).
Proof.
  intros Hne. split; intros (i & Hi & Hd).
  - exists i. split; [lia | exact Hd].
  - exists i. split; [| exact Hd].
    destruct (Z.eq_dec i a) as [-> | Hia]; [contradiction | lia].
Qed.

(** Between -2^53 and 2^53 the loop ends, after at most [b - a + 1]
    iterations, and finds the password exactly when it is the decimal
    string of an integer of the range. *)
Lemma scan_exact (k : nat) :
  forall (fuel : nat) (i e : number) (a b : Z) (pw : jsstring),
    to_Z i = Some a -> to_Z e = Some b ->
    - limit <= a -> b < limit ->
    Z.to_nat (b - a + 1) = k -> (k < fuel)%nat ->
    exists found n,
      scan fuel i e pw = Some (found, n) /\ (n <= k)%nat
      /\ (found = true <-> in_range a b pw)
      /\ (found = false -> n = k).
Proof.
  induction k as [| k IH]; intros fuel i e a b pw Hi He Ha Hb Hk Hfuel;
    (destruct fuel as [| fuel]; [lia |]); simpl scan;
    rewrite (le_to_Z i e a b Hi He).
  - destruct (Z.leb_spec a b) as [Hab | Hab]; [lia |].
    exists false, 0%nat. repeat split; try lia; try discriminate.
    intros Hin. exfalso. exact (in_range_empty a b pw Hab Hin).
  - destruct (Z.leb_spec a b) as [Hab | Hab]; [| lia].
    rewrite (toString_to_Z i a Hi) by lia.
    destruct (strict_equal (decimal a) pw) eqn:Heq.
    + apply strict_equal_true in Heq.
      exists true, 1%nat. repeat split; try lia; try discriminate.
      intros _. exists a. split; [lia | exact Heq].
    + apply strict_equal_false in Heq.
      rewrite (increment_to_Z i a Hi) by lia.
      destruct (IH fuel (Fin (a + 1)) e (a + 1) b pw eq_refl He)
        as (found & n & Hs & Hn & Hiff & Hfalse); try lia.
      rewrite Hs. exists found, (S n).
      repeat split; try lia.
      * intros Hf. apply (in_range_step a b pw Heq), Hiff, Hf.
      * intros Hin. apply Hiff, (in_range_step a b pw Heq), Hin.
      * intros Hf. rewrite (Hfalse Hf). reflexivity.
Qed.

(** From a start of at least -2^53 the loop reaches every integer of the
    range up to 2^53, so it finds a password that is the decimal string
    of one of them, whatever the end of the range. *)
Lemma scan_finds (k : nat) :
  forall (fuel : nat) (i e : number) (a b m : Z) (pw : jsstring),
    to_Z i = Some a -> to_Z e = Some b ->
    - limit <= a -> a <= m <= b -> m <= limit -> decimal m = pw ->
    Z.to_nat (m - a) = k -> (k < fuel)%nat ->
    exists n, scan fuel i e pw = Some (true, n) /\ (n <= S k)%nat.
Proof.
  induction k as [| k IH]; intros fuel i e a b m pw Hi He Ha Hm Hlim Hd Hk Hfuel;
    (destruct fuel as [| fuel]; [lia |]); simpl scan;
    rewrite (le_to_Z i e a b Hi He);
    (destruct (Z.leb_spec a b) as [Hab | Hab]; [| lia]);
    rewrite (toString_to_Z i a Hi) by lia.
  - assert (m = a) as -> by lia.
    apply strict_equal_true in Hd. rewrite Hd.
    exists 1%nat. split; [reflexivity | lia].
  - destruct (strict_equal (decimal a) pw) eqn:Heq.
    + exists 1%nat. split; [reflexivity | lia].
    + rewrite (increment_to_Z i a Hi) by lia.
      destruct (IH fuel (Fin (a + 1)) e (a + 1) b m pw eq_refl He)
        as (n & Hs & Hn); try lia; try assumption.
      rewrite Hs. exists (S n). split; [reflexivity | lia].
Qed.

(** A Number that stays the same under [i++] and is not the password
    keeps the loop running for ever. *)
Lemma scan_stuck (i e : number) (pw : jsstring) :
  le i e = true -> strict_equal (toString i) pw = false ->
  increment i = i -> forall fuel, scan fuel i e pw = None.
Proof.
  intros Hle Hne Hinc fuel. induction fuel as [| fuel IH]; [reflexivity |].
  simpl. rewrite Hle, Hne, Hinc, IH. reflexivity.
Qed.

(** A password that is a 0 followed by further characters is never
    found, whatever the bounds: a loop that ends on such a password ends
    with [found] false. *)
Lemma leading_zero_never_found (fuel : nat) :
  forall (i e : number) (c : N) (rest : jsstring) (found : bool) (n : nat),
    scan fuel i e (48%N :: c :: rest) = Some (found, n) -> found = false.
Proof.
  induction fuel as [| fuel IH]; intros i e c rest found n; [discriminate |].
  simpl. destruct (le i e); [| congruence].
  destruct (strict_equal (toString i) (48%N :: c :: rest)) eqn:Heq.
  - apply strict_equal_true in Heq.
    exfalso. exact (toString_no_leading_zero i c rest Heq).
  - destruct (scan fuel (increment i) e (48%N :: c :: rest))
      as [[f m] |] eqn:E; [| discriminate].
    intros [= <- _]. exact (IH _ _ _ _ _ _ E).
Qed.

(** Two runs of the loop that both end give the same outcome, whatever
    bounds they were run with. *)
Lemma scan_deterministic (f1 f2 : nat) (i e : number) (pw : jsstring)
  (r1 r2 : bool * nat) :
  scan f1 i e pw = Some r1 -> scan f2 i e pw = Some r2 -> r1 = r2.
Proof.
  intros H1 H2.
  pose proof (scan_more_fuel f1 i e pw r1 H1 (Nat.max f1 f2)
                (Nat.le_max_l f1 f2)) as E1.
  pose proof (scan_more_fuel f2 i e pw r2 H2 (Nat.max f1 f2)
                (Nat.le_max_r f1 f2)) as E2.
  congruence.
Qed.

End ScanFacts.

(** ** The handler *)

Module PopupFacts.
Import NumberFacts StringFacts ToStringFacts ParseIntFacts ScanFacts.

Lemma to_Z_not_NaN (x : number) (a : Z) : to_Z x = Some a -> isNaN x = false.
Proof. destruct x; simpl; congruence. Qed.

(** What the handler does once both bounds are numbers. *)
Lemma on_click_numbers (fuel : nat) (doc : document) :
  isNaN (parseInt (start_value doc)) = false ->
  isNaN (parseInt (end_value doc)) = false ->
  on_click fuel doc =
  match scan fuel (parseInt (start_value doc)) (parseInt (end_value doc))
          (password_value doc) with
  | None => None
  | Some (found, n) =>
      if found then Some (set_result doc within_range green, n)
      else Some (set_result doc not_in_range red, n)
  end.
Proof. intros Hs He. unfold on_click. rewrite Hs, He. reflexivity. Qed.

Lemma on_click_stuck (doc : document) :
  isNaN (parseInt (start_value doc)) = false ->
  isNaN (parseInt (end_value doc)) = false ->
  le (parseInt (start_value doc)) (parseInt (end_value doc)) = true ->
  strict_equal (toString (parseInt (start_value doc))) (password_value doc)
  = false ->
  increment (parseInt (start_value doc)) = parseInt (start_value doc) ->
  forall fuel, on_click fuel doc = None.
Proof.
  intros Hs He Hle Hne Hinc fuel.
  rewrite (on_click_numbers fuel doc Hs He).
  rewrite (scan_stuck _ _ _ Hle Hne Hinc fuel). reflexivity.
Qed.

(** The three messages are different texts. *)
Lemma messages_distinct :
  invalid_range <> within_range /\ invalid_range <> not_in_range
  /\ within_range <> not_in_range /\ red <> green.
Proof. repeat split; discriminate. Qed.

Lemma on_click_outcome (fuel : nat) (doc doc' : document) (n : nat) :
  on_click fuel doc = Some (doc', n) ->
  doc' = set_result doc invalid_range red
  \/ doc' = set_result doc within_range green
  \/ doc' = set_result doc not_in_range red.
Proof.
  unfold on_click.
  destruct (isNaN (parseInt (start_value doc)) || isNaN (parseInt (end_value doc))).
  - intros [= <- _]. left. reflexivity.
  - destruct (scan fuel _ _ _) as [[[|] m] |]; try discriminate;
      intros [= <- _]; [right; left | right; right]; reflexivity.
Qed.

(** The handler on bounds between -2^53 and 2^53: it ends, and reports
    what membership in the range says. *)
Lemma on_click_exact (doc : document) (a b : Z) (fuel : nat) :
  to_Z (parseInt (start_value doc)) = Some a ->
  to_Z (parseInt (end_value doc)) = Some b ->
  - limit <= a -> b < limit ->
  (Z.to_nat (b - a + 1) < fuel)%nat ->
  exists (found : bool) (n : nat),
    on_click fuel doc
    = Some (if found then set_result doc within_range green
            else set_result doc not_in_range red, n)
    /\ (n <= Z.to_nat (b - a + 1))%nat
    /\ (found = true <-> in_range a b (password_value doc))
    /\ (found = false -> n = Z.to_nat (b - a + 1)).
Proof.
  intros Hs He Ha Hb Hfuel.
  rewrite on_click_numbers by eauto using to_Z_not_NaN.
  destruct (scan_exact _ fuel _ _ a b (password_value doc) Hs He Ha Hb
              eq_refl Hfuel) as (found & n & Hscan & Hn & Hiff & Hfalse).
  rewrite Hscan. exists found, n.
  split; [destruct found; reflexivity |]. auto.
Qed.

(** What a run that returns [set_result doc text colour] has written
    into the result element. *)
Lemma written (r : option (document * nat)) (doc : document)
  (text colour : jsstring) (n : nat) :
  r = Some (set_result doc text colour, n) ->
  exists doc',
    r = Some (doc', n)
    /\ textContent (result doc') = text /\ color (result doc') = colour.
Proof.
  intros ->. exists (set_result doc text colour). repeat split.
Qed.

End PopupFacts.

(** ** Properties of the handler *)

Import NumberFacts StringFacts ToStringFacts ParseIntFacts ScanFacts PopupFacts.

(** C1 (as amended).  When start and end parse to integers [a] and [b]
    with [-2^53 <= a], and some integer [i <= 2^53] of [[a, b]] has the
    password as its decimal string, the handler ends (any bound above
    [i - a] is enough) and leaves the text "Password is within range ?"
    and the colour "green" in the result element. *)
Theorem found_when_in_range (doc : document) (a b i : Z) (fuel : nat) :
  to_Z (parseInt (start_value doc)) = Some a ->
  to_Z (parseInt (end_value doc)) = Some b ->
  - limit <= a ->
  a <= i <= b -> i <= limit -> decimal i = password_value doc ->
  (Z.to_nat (i - a) < fuel)%nat ->
  exists doc' n,
    on_click fuel doc = Some (doc', n)
    /\ textContent (result doc') = lit "Password is within range ?"
    /\ color (result doc') = lit "green".
Proof.
  intros Hs He Ha Hi Hlim Hd Hfuel.
  destruct (scan_finds _ fuel _ _ a b i (password_value doc) Hs He Ha Hi
              Hlim Hd eq_refl Hfuel) as (n & Hscan & _).
  destruct (written (on_click fuel doc) doc within_range green n)
    as (doc' & Hrun & Htext & Hcolour).
  { rewrite on_click_numbers by eauto using to_Z_not_NaN.
    rewrite Hscan. reflexivity. }
  exists doc', n. repeat split; assumption.
Qed.

Lemma found_when_in_range_witness :
  exists doc' n,
    on_click 5 (typed "5" "1" "10") = Some (doc', n)
    /\ textContent (result doc') = lit "Password is within range ?"
    /\ color (result doc') = lit "green".
Proof.
  apply (found_when_in_range (typed "5" "1" "10") 1 10 5 5).
  - reflexivity.
  - reflexivity.
  - vm_compute. discriminate.
  - lia.
  - vm_compute. discriminate.
  - reflexivity.
  - vm_compute. lia.
Defined.

(** C1, as stated, fails above 2^53 and below -2^53.  Start
    9007199254740992 (2^53) and end 9007199254740994 parse to these
    integers, 9007199254740994 lies in the range and both its decimal
    string and its [toString()] are the password, but [i++] leaves 2^53
    unchanged, so the loop never ends and nothing is written.  In the
    same way [i++] leaves -9007199254740996 (-2^53 - 4) unchanged, and a
    scan from there to 0 never reaches the password 0. *)
Lemma found_fails_beyond_limit :
  (let doc := typed "9007199254740994" "9007199254740992" "9007199254740994" in
   to_Z (parseInt (start_value doc)) = Some 9007199254740992
   /\ to_Z (parseInt (end_value doc)) = Some 9007199254740994
   /\ in_range 9007199254740992 9007199254740994 (password_value doc)
   /\ toString (Fin 9007199254740994) = password_value doc
   /\ forall fuel, on_click fuel doc = None)
  /\ (let doc := typed "0" "-9007199254740996" "0" in
      to_Z (parseInt (start_value doc)) = Some (-9007199254740996)
      /\ to_Z (parseInt (end_value doc)) = Some 0
      /\ in_range (-9007199254740996) 0 (password_value doc)
      /\ forall fuel, on_click fuel doc = None).
Proof.
  cbv zeta. split.
  - split; [vm_compute; reflexivity |].
    split; [vm_compute; reflexivity |].
    split; [exists 9007199254740994; split; [lia | vm_compute; reflexivity] |].
    split; [vm_compute; reflexivity |].
    apply on_click_stuck; vm_compute; reflexivity.
  - split; [vm_compute; reflexivity |].
    split; [vm_compute; reflexivity |].
    split; [exists 0; split; [lia | reflexivity] |].
    apply on_click_stuck; vm_compute; reflexivity.
Qed.

(** C2 (as amended).  When start and end parse to integers [a] and [b]
    with [-2^53 <= a] and [b < 2^53], and no integer of [[a, b]] has the
    password as its decimal string, the handler ends, after one iteration
    per integer of the range, and leaves the text "Password NOT in
    range ?" and the colour "red" in the result element. *)
Theorem not_found_when_not_in_range (doc : document) (a b : Z) (fuel : nat) :
  to_Z (parseInt (start_value doc)) = Some a ->
  to_Z (parseInt (end_value doc)) = Some b ->
  - limit <= a -> b < limit ->
  ~ in_range a b (password_value doc) ->
  (Z.to_nat (b - a + 1) < fuel)%nat ->
  exists doc',
    on_click fuel doc = Some (doc', Z.to_nat (b - a + 1))
    /\ textContent (result doc') = lit "Password NOT in range ?"
    /\ color (result doc') = lit "red".
Proof.
  intros Hs He Ha Hb Hin Hfuel.
  apply (written _ doc not_in_range red).
  destruct (on_click_exact doc a b fuel Hs He Ha Hb Hfuel)
    as (found & n & Hrun & _ & Hiff & Hfalse).
  rewrite Hrun. destruct found.
  - exfalso. apply Hin, Hiff. reflexivity.
  - rewrite (Hfalse eq_refl). reflexivity.
Qed.

Lemma not_found_when_not_in_range_witness :
  exists doc',
    on_click 4 (typed "42" "1" "3") = Some (doc', Z.to_nat (3 - 1 + 1))
    /\ textContent (result doc') = lit "Password NOT in range ?"
    /\ color (result doc') = lit "red".
Proof.
  apply (not_found_when_not_in_range (typed "42" "1" "3") 1 3 4).
  - reflexivity.
  - reflexivity.
  - vm_compute. discriminate.
  - reflexivity.
  - intros (i & Hi & Hd).
    assert (i = 1 \/ i = 2 \/ i = 3) as [-> | [-> | ->]] by lia;
      vm_compute in Hd; discriminate.
  - vm_compute. lia.
Defined.

(** C2, as stated, fails above 2^53 and below -2^53.  Start and end
    18014398509481984 (2^54) parse to that integer, whose decimal string
    is not the password 7, but [i++] leaves it unchanged, so the loop
    never ends and the not-found message is never written.  The same
    happens from start -18014398509481984 to end 3. *)
Lemma not_found_fails_beyond_limit :
  (let doc := typed "7" "18014398509481984" "18014398509481984" in
   to_Z (parseInt (start_value doc)) = Some 18014398509481984
   /\ to_Z (parseInt (end_value doc)) = Some 18014398509481984
   /\ ~ in_range 18014398509481984 18014398509481984 (password_value doc)
   /\ forall fuel, on_click fuel doc = None)
  /\ (let doc := typed "7" "-18014398509481984" "3" in
      to_Z (parseInt (start_value doc)) = Some (-18014398509481984)
      /\ to_Z (parseInt (end_value doc)) = Some 3
      /\ ~ in_range (-18014398509481984) 3 (password_value doc)
      /\ forall fuel, on_click fuel doc = None).
Proof.
  cbv zeta. split.
  - split; [vm_compute; reflexivity |].
    split; [vm_compute; reflexivity |].
    split.
    + intros (i & Hi & Hd). assert (i = 18014398509481984) as -> by lia.
      vm_compute in Hd. discriminate.
    + apply on_click_stuck; vm_compute; reflexivity.
  - split; [vm_compute; reflexivity |].
    split; [vm_compute; reflexivity |].
    split.
    + intros (i & Hi & Hd).
      change (password_value (typed "7" "-18014398509481984" "3"))
        with (decimal 7) in Hd.
      apply decimal_injective in Hd. lia.
    + apply on_click_stuck; vm_compute; reflexivity.
Qed.

(** C3.  When [parseInt] gives NaN for start or for end, the handler
    leaves the text "Invalid range" and the colour "red" in the result
    element, whatever the password, and the loop does not run at all: no
    iteration is made and no bound on the loop is needed. *)
Theorem invalid_range_on_NaN (doc : document) (fuel : nat) :
  isNaN (parseInt (start_value doc)) = true
  \/ isNaN (parseInt (end_value doc)) = true ->
  exists doc',
    on_click fuel doc = Some (doc', 0%nat)
    /\ textContent (result doc') = lit "Invalid range"
    /\ color (result doc') = lit "red".
Proof.
  intros H. apply (written _ doc invalid_range red).
  unfold on_click. apply orb_true_iff in H. rewrite H. reflexivity.
Qed.

Lemma invalid_range_on_NaN_witness :
  exists doc',
    on_click 0 (typed "5" "a" "10") = Some (doc', 0%nat)
    /\ textContent (result doc') = lit "Invalid range"
    /\ color (result doc') = lit "red".
Proof.
  apply (invalid_range_on_NaN (typed "5" "a" "10") 0).
  left. reflexivity.
Defined.

(** C4 (as amended).  The handler short-circuits to "Invalid range"
    exactly when [parseInt] finds no digit in start or in end, that is
    when, after leading white space, an optional sign and an optional
    [0x] or [0X] prefix, the text does not start with a digit of the
    radix.  Every well-formed base-10 integer string is accepted, and is
    parsed to the Number nearest its base-10 value (to -0 for a negative
    zero), which is that value itself up to magnitude 2^53. *)
Theorem invalid_range_iff_no_digits (fuel : nat) (doc : document) (s : jsstring) :
  (on_click fuel doc = Some (set_result doc invalid_range red, 0%nat)
   <-> starts_with_digits (start_value doc) = false
       \/ starts_with_digits (end_value doc) = false)
  /\ (well_formed_integer s = true ->
      starts_with_digits s = true
      /\ (parseInt s = of_integer (integer_value s)
          \/ (parseInt s = NegZero /\ integer_value s = 0))
      /\ (- limit <= integer_value s <= limit ->
          to_Z (parseInt s) = Some (integer_value s))).
Proof.
  split.
  - rewrite <- !parseInt_NaN. split.
    + intros H.
      destruct (isNaN (parseInt (start_value doc))) eqn:Hs; [tauto |].
      destruct (isNaN (parseInt (end_value doc))) eqn:He; [tauto |].
      exfalso. rewrite (on_click_numbers fuel doc Hs He) in H.
      destruct (scan fuel _ _ _) as [[[|] m] |]; try discriminate;
        injection H as H _; vm_compute in H; discriminate.
    + intros H. unfold on_click.
      apply orb_true_iff in H. rewrite H. reflexivity.
  - intros Hwf. destruct (parseInt_well_formed s Hwf) as [Hd Hv].
    split; [exact Hd |]. split; [exact Hv |].
    intros Hb. destruct Hv as [Hv | [Hv H0]].
    + rewrite Hv, of_integer_exact by exact Hb. reflexivity.
    + rewrite Hv, H0. reflexivity.
Qed.

Lemma invalid_range_iff_no_digits_witness :
  starts_with_digits (lit "-42") = true
  /\ to_Z (parseInt (lit "-42")) = Some (-42).
Proof.
  destruct (invalid_range_iff_no_digits 0 (typed "5" "1" "10") (lit "-42"))
    as [_ H].
  destruct (H eq_refl) as (Hd & _ & Hv).
  split; [exact Hd |].
  apply Hv. vm_compute. split; discriminate.
Defined.

(** C4, as stated, fails: "12abc" and "0x14" are not well-formed base-10
    integers, but [parseInt] reads 12 from the first and 20 from the
    second, so the handler scans 12..20 and finds the password 15. *)
Lemma malformed_bounds_are_accepted :
  well_formed_integer (lit "12abc") = false
  /\ well_formed_integer (lit "0x14") = false
  /\ parseInt (lit "12abc") = Fin 12
  /\ parseInt (lit "0x14") = Fin 20
  /\ on_click 10 (typed "15" "12abc" "0x14")
     = Some (set_result (typed "15" "12abc" "0x14") within_range green, 4%nat).
Proof. repeat split; vm_compute; reflexivity. Qed.

(** C5 (as amended).  A password that begins with 0 and is longer than
    one character is the decimal string of no integer and the
    [toString()] of no Number, so when start and end parse to integers
    [a] and [b] with [-2^53 <= a] and [b < 2^53] the handler ends and
    leaves the text "Password NOT in range ?" and the colour "red" in the
    result element. *)
Theorem leading_zero_not_found
  (doc : document) (c : N) (rest : jsstring) (a b : Z) (fuel : nat) :
  password_value doc = 48%N :: c :: rest ->
  to_Z (parseInt (start_value doc)) = Some a ->
  to_Z (parseInt (end_value doc)) = Some b ->
  - limit <= a -> b < limit ->
  (Z.to_nat (b - a + 1) < fuel)%nat ->
  (forall z : Z, decimal z <> password_value doc)
  /\ (forall x : number, toString x <> password_value doc)
  /\ exists doc',
       on_click fuel doc = Some (doc', Z.to_nat (b - a + 1))
       /\ textContent (result doc') = lit "Password NOT in range ?"
       /\ color (result doc') = lit "red".
Proof.
  intros Hpw Hs He Ha Hb Hfuel.
  assert (forall z : Z, decimal z <> password_value doc) as Hdec.
  { intros z. rewrite Hpw. apply decimal_no_leading_zero. }
  split; [exact Hdec |]. split.
  - intros x. rewrite Hpw. apply toString_no_leading_zero.
  - apply (written _ doc not_in_range red).
    destruct (on_click_exact doc a b fuel Hs He Ha Hb Hfuel)
      as (found & n & Hrun & _ & Hiff & Hfalse).
    rewrite Hrun. destruct found.
    + destruct (proj1 Hiff eq_refl) as (i & _ & Hi).
      exfalso. exact (Hdec i Hi).
    + rewrite (Hfalse eq_refl). reflexivity.
Qed.

Lemma leading_zero_not_found_witness :
  decimal 5 <> lit "05"
  /\ toString (Fin 5) <> lit "05"
  /\ exists doc',
       on_click 11 (typed "05" "1" "10") = Some (doc', Z.to_nat (10 - 1 + 1))
       /\ textContent (result doc') = lit "Password NOT in range ?"
       /\ color (result doc') = lit "red".
Proof.
  destruct (leading_zero_not_found (typed "05" "1" "10") 53%N [] 1 10 11)
    as (Hd & Ht & Hrun).
  - reflexivity.
  - reflexivity.
  - reflexivity.
  - vm_compute. discriminate.
  - reflexivity.
  - vm_compute. lia.
  - exact (conj (Hd 5) (conj (Ht (Fin 5)) Hrun)).
Defined.

(** C5, as stated, fails on the handler's report above 2^53 and below
    -2^53.  Start and end 9007199254740992 (2^53) are a valid integer
    range and the password 05 has a leading zero, but [i++] leaves 2^53
    unchanged, so the loop never ends and the not-found message is never
    written.  The same happens from start -9007199254740996 to end 10. *)
Lemma leading_zero_unreported_at_limit :
  (let doc := typed "05" "9007199254740992" "9007199254740992" in
   to_Z (parseInt (start_value doc)) = Some 9007199254740992
   /\ to_Z (parseInt (end_value doc)) = Some 9007199254740992
   /\ password_value doc = [48%N; 53%N]
   /\ forall fuel, on_click fuel doc = None)
  /\ (let doc := typed "05" "-9007199254740996" "10" in
      to_Z (parseInt (start_value doc)) = Some (-9007199254740996)
      /\ to_Z (parseInt (end_value doc)) = Some 10
      /\ password_value doc = [48%N; 53%N]
      /\ forall fuel, on_click fuel doc = None).
Proof.
  cbv zeta. split.
  - do 3 (split; [vm_compute; reflexivity |]).
    apply on_click_stuck; vm_compute; reflexivity.
  - do 3 (split; [vm_compute; reflexivity |]).
    apply on_click_stuck; vm_compute; reflexivity.
Qed.

(** C6 (as amended).  For Numbers [i] and [e] that are integers [a] and
    [b] with [-2^53 <= a] and [b < 2^53], the loop with its early exit
    ends and its [found] is true exactly when the declarative check
    holds: some integer between [a] and [b] has the password as its
    decimal string. *)
Theorem scan_refines_in_range
  (i e : number) (a b : Z) (password : jsstring) (fuel : nat) :
  to_Z i = Some a -> to_Z e = Some b ->
  - limit <= a -> b < limit ->
  (Z.to_nat (b - a + 1) < fuel)%nat ->
  exists found n,
    scan fuel i e password = Some (found, n)
    /\ (found = true <-> in_range a b password).
Proof.
  intros Hi He Ha Hb Hfuel.
  destruct (scan_exact _ fuel i e a b password Hi He Ha Hb eq_refl Hfuel)
    as (found & n & Hscan & _ & Hiff & _).
  exists found, n. split; assumption.
Qed.

Lemma scan_refines_in_range_witness :
  exists found n,
    scan 11 (Fin 1) (Fin 10) (lit "5") = Some (found, n)
    /\ (found = true <-> in_range 1 10 (lit "5")).
Proof.
  apply (scan_refines_in_range (Fin 1) (Fin 10) 1 10 (lit "5") 11).
  - reflexivity.
  - reflexivity.
  - vm_compute. discriminate.
  - reflexivity.
  - vm_compute. lia.
Defined.

(** C6, as stated, fails below -2^53 and above 2^53.  From start
    -9007199254740996 (-2^53 - 4) to end 0 the declarative check holds
    for the password 0, but [i++] leaves the start value unchanged, so
    the loop never reaches 0 and gives no outcome.  From start
    9007199254740992 (2^53) to end 9007199254740996 the check holds for
    the password 9007199254740996 and the loop stays at 2^53. *)
Lemma scan_diverges_beyond_limit :
  (to_Z (parseInt (lit "-9007199254740996")) = Some (-9007199254740996)
   /\ to_Z (parseInt (lit "0")) = Some 0
   /\ in_range (-9007199254740996) 0 (lit "0")
   /\ forall fuel,
        scan fuel (parseInt (lit "-9007199254740996")) (parseInt (lit "0"))
          (lit "0") = None)
  /\ (to_Z (parseInt (lit "9007199254740992")) = Some 9007199254740992
      /\ to_Z (parseInt (lit "9007199254740996")) = Some 9007199254740996
      /\ in_range 9007199254740992 9007199254740996 (lit "9007199254740996")
      /\ forall fuel,
           scan fuel (parseInt (lit "9007199254740992"))
             (parseInt (lit "9007199254740996")) (lit "9007199254740996")
           = None).
Proof.
  split.
  - do 2 (split; [vm_compute; reflexivity |]).
    split; [exists 0; split; [lia | reflexivity] |].
    apply scan_stuck; vm_compute; reflexivity.
  - do 2 (split; [vm_compute; reflexivity |]).
    split; [exists 9007199254740996; split; [lia | vm_compute; reflexivity] |].
    apply scan_stuck; vm_compute; reflexivity.
Qed.

(** C7 (as amended).  When start and end parse to integers [a] and [b]
    with [-2^53 <= a] and [b < 2^53], the handler ends, whatever the size
    of the range, after at most [b - a + 1] iterations of the loop. *)
Theorem scan_terminates_within_bound (doc : document) (a b : Z) (fuel : nat) :
  to_Z (parseInt (start_value doc)) = Some a ->
  to_Z (parseInt (end_value doc)) = Some b ->
  - limit <= a -> b < limit ->
  (Z.to_nat (b - a + 1) < fuel)%nat ->
  exists doc' n,
    on_click fuel doc = Some (doc', n) /\ (n <= Z.to_nat (b - a + 1))%nat.
Proof.
  intros Hs He Ha Hb Hfuel.
  destruct (on_click_exact doc a b fuel Hs He Ha Hb Hfuel)
    as (found & n & Hrun & Hn & _).
  eexists; exists n. split; [exact Hrun | exact Hn].
Qed.

Lemma scan_terminates_within_bound_witness :
  exists doc' n,
    on_click 1001 (typed "x" "-500" "499") = Some (doc', n)
    /\ (n <= Z.to_nat (499 - -500 + 1))%nat.
Proof.
  apply (scan_terminates_within_bound (typed "x" "-500" "499") (-500) 499 1001).
  - reflexivity.
  - reflexivity.
  - vm_compute. discriminate.
  - reflexivity.
  - vm_compute. lia.
Defined.

(** C7, as stated, fails at 2^53 and below -2^53.  With start and end
    both 9007199254740992 (2^53), a range of one integer, [i++] leaves
    [i] at 2^53, the condition [i <= end] stays true, and the loop runs
    past every bound.  From start -9007199254740996 (-2^53 - 4) to end
    -9007199254740990 it does the same. *)
Lemma scan_never_ends_at_limit :
  (let doc := typed "" "9007199254740992" "9007199254740992" in
   to_Z (parseInt (start_value doc)) = Some 9007199254740992
   /\ to_Z (parseInt (end_value doc)) = Some 9007199254740992
   /\ increment (Fin 9007199254740992) = Fin 9007199254740992
   /\ forall fuel, on_click fuel doc = None)
  /\ (let doc := typed "" "-9007199254740996" "-9007199254740990" in
      to_Z (parseInt (start_value doc)) = Some (-9007199254740996)
      /\ to_Z (parseInt (end_value doc)) = Some (-9007199254740990)
      /\ increment (Fin (-9007199254740996)) = Fin (-9007199254740996)
      /\ forall fuel, on_click fuel doc = None).
Proof.
  cbv zeta. split.
  - do 3 (split; [vm_compute; reflexivity |]).
    apply on_click_stuck; vm_compute; reflexivity.
  - do 3 (split; [vm_compute; reflexivity |]).
    apply on_click_stuck; vm_compute; reflexivity.
Qed.

(** C8.  When start and end parse to integers and start is greater than
    end, the loop body never runs and the handler leaves the text
    "Password NOT in range ?" and the colour "red" in the result element,
    whatever the password. *)
Theorem empty_range_not_found (doc : document) (a b : Z) (fuel : nat) :
  to_Z (parseInt (start_value doc)) = Some a ->
  to_Z (parseInt (end_value doc)) = Some b ->
  b < a ->
  exists doc',
    on_click (S fuel) doc = Some (doc', 0%nat)
    /\ textContent (result doc') = lit "Password NOT in range ?"
    /\ color (result doc') = lit "red".
Proof.
  intros Hs He Hlt. apply (written _ doc not_in_range red).
  rewrite on_click_numbers by eauto using to_Z_not_NaN.
  simpl scan. rewrite (le_to_Z _ _ a b Hs He).
  destruct (Z.leb_spec a b); [lia | reflexivity].
Qed.

Lemma empty_range_not_found_witness :
  exists doc',
    on_click 1 (typed "5" "10" "1") = Some (doc', 0%nat)
    /\ textContent (result doc') = lit "Password NOT in range ?"
    /\ color (result doc') = lit "red".
Proof.
  apply (empty_range_not_found (typed "5" "10" "1") 10 1 0).
  - reflexivity.
  - reflexivity.
  - reflexivity.
Defined.

(** C9 (as amended).  An invocation ends whenever start or end does not
    parse, and whenever they parse to integers [a] and [b] with
    [-2^53 <= a] and [b < 2^53].  Every invocation that ends leaves one
    of three pairs in the result element: "Invalid range" with "red",
    "Password is within range ?" with "green", or "Password NOT in
    range ?" with "red"; so the colour is green exactly when the text is
    the found message, and the other two messages go with red. *)
Theorem result_invariant (fuel : nat) (doc : document) :
  (isNaN (parseInt (start_value doc)) = true
   \/ isNaN (parseInt (end_value doc)) = true
   \/ (exists a b,
         to_Z (parseInt (start_value doc)) = Some a
         /\ to_Z (parseInt (end_value doc)) = Some b
         /\ - limit <= a /\ b < limit
         /\ (Z.to_nat (b - a + 1) < fuel)%nat) ->
   exists doc' n, on_click fuel doc = Some (doc', n))
  /\ (forall doc' n,
        on_click fuel doc = Some (doc', n) ->
        ((textContent (result doc') = lit "Invalid range"
          /\ color (result doc') = lit "red")
         \/ (textContent (result doc') = lit "Password is within range ?"
             /\ color (result doc') = lit "green")
         \/ (textContent (result doc') = lit "Password NOT in range ?"
             /\ color (result doc') = lit "red"))
        /\ (color (result doc') = lit "green"
            <-> textContent (result doc') = lit "Password is within range ?")
        /\ (textContent (result doc') = lit "Invalid range"
            -> color (result doc') = lit "red")
        /\ (textContent (result doc') = lit "Password NOT in range ?"
            -> color (result doc') = lit "red")).
Proof.
  split.
  - intros [H | [H | (a & b & Hs & He & Ha & Hb & Hfuel)]].
    + unfold on_click. rewrite H. simpl. eexists; eexists; reflexivity.
    + unfold on_click. rewrite H, orb_true_r. eexists; eexists; reflexivity.
    + destruct (on_click_exact doc a b fuel Hs He Ha Hb Hfuel)
        as (found & n & Hrun & _).
      eexists; eexists; exact Hrun.
  - intros doc' n H.
    destruct (on_click_outcome fuel doc doc' n H) as [-> | [-> | ->]]; simpl;
      (split; [auto |]); repeat split; try reflexivity; intros E;
      try reflexivity; vm_compute in E; discriminate.
Qed.

Lemma result_invariant_witness :
  exists doc' n, on_click 11 (typed "5" "1" "10") = Some (doc', n).
Proof.
  apply (result_invariant 11 (typed "5" "1" "10")).
  right. right. exists 1, 10.
  repeat split; try reflexivity; vm_compute; try discriminate; lia.
Defined.

(** C9, as stated, fails: an invocation with start 9007199254740992
    (2^53), end 9007199254740994 and password abc never ends, since [i++]
    leaves 2^53 unchanged, so it writes none of the three pairs. *)
Lemma nothing_written_at_limit :
  let doc := typed "abc" "9007199254740992" "9007199254740994" in
  to_Z (parseInt (start_value doc)) = Some 9007199254740992
  /\ to_Z (parseInt (end_value doc)) = Some 9007199254740994
  /\ forall fuel, on_click fuel doc = None.
Proof.
  cbv zeta. do 2 (split; [vm_compute; reflexivity |]).
  apply on_click_stuck; vm_compute; reflexivity.
Qed.

(** C10.  The handler is deterministic: on two documents whose password,
    start and end fields hold the same values, whatever their result
    elements held before, an invocation behaves the same way under every
    bound, and two invocations that end leave the same document, so the
    same message and the same colour, after the same number of
    iterations. *)
Theorem on_click_deterministic (d1 d2 : document) :
  password_value d1 = password_value d2 ->
  start_value d1 = start_value d2 ->
  end_value d1 = end_value d2 ->
  (forall fuel, on_click fuel d1 = on_click fuel d2)
  /\ (forall f1 f2 d1' d2' n1 n2,
        on_click f1 d1 = Some (d1', n1) ->
        on_click f2 d2 = Some (d2', n2) ->
        textContent (result d1') = textContent (result d2')
        /\ color (result d1') = color (result d2')
        /\ d1' = d2' /\ n1 = n2).
Proof.
  intros Hp Hs He.
  assert (forall t c, set_result d1 t c = set_result d2 t c) as Hset.
  { intros t c. unfold set_result. rewrite Hp, Hs, He. reflexivity. }
  assert (forall fuel, on_click fuel d1 = on_click fuel d2) as Hsame.
  { intros fuel. unfold on_click. rewrite Hp, Hs, He, !Hset. reflexivity. }
  split; [exact Hsame |].
  intros f1 f2 d1' d2' n1 n2. rewrite Hsame. unfold on_click.
  destruct (isNaN (parseInt (start_value d2)) || isNaN (parseInt (end_value d2))).
  - intros [= <- <-] [= <- <-]. repeat split.
  - destruct (scan f1 _ _ _) as [[found1 m1] |] eqn:E1; [| discriminate].
    destruct (scan f2 _ _ _) as [[found2 m2] |] eqn:E2; [| discriminate].
    pose proof (scan_deterministic _ _ _ _ _ _ _ E1 E2) as Heq.
    injection Heq as -> ->.
    destruct found2; intros [= <- <-] [= <- <-]; repeat split.
Qed.

Lemma on_click_deterministic_witness :
  on_click 11 (typed "5" "1" "10")
  = on_click 11 (set_result (typed "5" "1" "10") invalid_range red).
Proof.
  apply (on_click_deterministic (typed "5" "1" "10")
           (set_result (typed "5" "1" "10") invalid_range red)).
  - reflexivity.
  - reflexivity.
  - reflexivity.
Defined.

(** ** Further properties: the two conversions *)

Module ConversionFacts.
Import NumberFacts StringFacts ToStringFacts ParseIntFacts.

Lemma units_all_digits (d : uint) :
  forallb is_decimal_digit (units_of_uint d) = true.
Proof. induction d; simpl; try reflexivity; exact IHd. Qed.

Lemma units_nonempty (p : positive) : units_of_uint (Pos.to_uint p) <> [].
Proof.
  pose proof (DecimalPos.Unsigned.to_uint_nonnil p) as Hn.
  destruct (Pos.to_uint p); simpl; congruence.
Qed.

(** Reading the digits of [d] in base 10 after an accumulated [acc] is
    what [Pos.of_uint_acc] computes. *)
Lemma fold_units_acc (d : uint) :
  forall acc : positive,
    fold_left (fun a c => a * 10 + (Z.of_N c - 48)) (units_of_uint d)
      (Zpos acc)
    = Zpos (Pos.of_uint_acc d acc).
Proof.
  induction d; intros acc; cbn [units_of_uint fold_left Pos.of_uint_acc];
    try reflexivity;
    match goal with
    | |- fold_left _ _ ?x = Zpos (Pos.of_uint_acc _ ?y) =>
        replace x with (Zpos y) by (change (Z.of_N 48) with 48;
          change (Z.of_N 49) with 49; change (Z.of_N 50) with 50;
          change (Z.of_N 51) with 51; change (Z.of_N 52) with 52;
          change (Z.of_N 53) with 53; change (Z.of_N 54) with 54;
          change (Z.of_N 55) with 55; change (Z.of_N 56) with 56;
          change (Z.of_N 57) with 57; lia)
    end; apply IHd.
Qed.

Lemma fold_units (d : uint) :
  fold_left (fun a c => a * 10 + (Z.of_N c - 48)) (units_of_uint d) 0
  = Z.of_N (Pos.of_uint d).
Proof.
  induction d; cbn [units_of_uint fold_left Pos.of_uint];
    try reflexivity; try exact IHd;
    match goal with
    | |- fold_left _ _ ?x = Z.of_N (Npos (Pos.of_uint_acc _ ?y)) =>
        change x with (Zpos y)
    end; apply fold_units_acc.
Qed.

(** The digits of a positive integer are worth that integer. *)
Lemma unsigned_value_digits (p : positive) :
  unsigned_value (units_of_uint (Pos.to_uint p)) = Zpos p.
Proof.
  unfold unsigned_value. rewrite fold_units.
  rewrite DecimalPos.Unsigned.of_to. reflexivity.
Qed.

(** An unsigned string of digits is read at its base-10 value. *)
Lemma parseInt_unsigned (s : jsstring) :
  s <> [] -> forallb is_decimal_digit s = true ->
  parseInt s = of_integer (unsigned_value s).
Proof.
  intros Hne Hall.
  destruct (parse_digits s Hne Hall) as (Hp & Hd & Hm).
  destruct s as [| c rest]; [congruence |].
  assert (is_decimal_digit c = true) as Hc.
  { simpl in Hall. apply andb_true_iff in Hall. tauto. }
  pose proof (digit_bounds c Hc) as Hb.
  assert (((c =? 43) || (c =? 45))%N = false) as Hsign.
  { apply orb_false_iff. split; apply N.eqb_neq; lia. }
  unfold parseInt.
  change (trim_start (c :: rest))
    with (if is_white_space c then trim_start rest else c :: rest).
  rewrite (digit_not_space c Hc).
  change (strip_sign (c :: rest))
    with (if ((c =? 43) || (c =? 45))%N then rest else c :: rest).
  rewrite Hsign, Hp.
  destruct (leading_digits 10 (c :: rest)) as [| d ds] eqn:Hl; [congruence |].
  rewrite Hm. unfold sign_of.
  apply orb_false_iff in Hsign. destruct Hsign as [_ H45]. rewrite H45.
  simpl (1 =? -1).
  destruct (Z.eqb_spec (unsigned_value (c :: rest)) 0) as [H0 | H0].
  - rewrite H0. reflexivity.
  - f_equal; lia.
Qed.

(** A minus sign and digits worth more than 0 are read at the opposite of
    their base-10 value. *)
Lemma parseInt_negative (s : jsstring) :
  s <> [] -> forallb is_decimal_digit s = true -> unsigned_value s <> 0 ->
  parseInt (45%N :: s) = of_integer (- unsigned_value s).
Proof.
  intros Hne Hall Hnz.
  destruct (parse_digits s Hne Hall) as (Hp & Hd & Hm).
  unfold parseInt.
  change (trim_start (45%N :: s)) with (45%N :: s).
  change (strip_sign (45%N :: s)) with s.
  rewrite Hp.
  destruct (leading_digits 10 s) as [| d ds] eqn:Hl; [congruence |].
  rewrite Hm. change (sign_of (45%N :: s)) with (-1).
  destruct (Z.eqb_spec (unsigned_value s) 0) as [H0 | H0]; [contradiction |].
  f_equal; lia.
Qed.

(** [parseInt] reads the decimal string of an integer back to the Number
    for that integer. *)
Lemma parseInt_decimal (z : Z) : parseInt (decimal z) = of_integer z.
Proof.
  destruct z as [| p | p].
  - reflexivity.
  - simpl decimal.
    rewrite parseInt_unsigned
      by (try apply units_nonempty; apply units_all_digits).
    rewrite unsigned_value_digits. reflexivity.
  - simpl decimal.
    rewrite parseInt_negative
      by (try apply units_nonempty; try apply units_all_digits;
          rewrite unsigned_value_digits; discriminate).
    rewrite unsigned_value_digits. reflexivity.
Qed.

End ConversionFacts.

(** ** Further properties: how a bound is read *)

Module ReadingFacts.
Import NumberFacts StringFacts ToStringFacts ParseIntFacts ConversionFacts.

Lemma trim_start_white (ws s : jsstring) :
  forallb is_white_space ws = true -> trim_start (ws ++ s) = trim_start s.
Proof.
  induction ws as [| c ws IH]; simpl; [reflexivity |].
  rewrite andb_true_iff. intros [Hc Hws]. rewrite Hc. exact (IH Hws).
Qed.

Lemma not_digit_radix10 (c : N) :
  is_decimal_digit c = false -> radix_digit 10 c = None.
Proof.
  unfold is_decimal_digit, radix_digit, digit_value. intros H.
  destruct ((48 <=? c) && (c <=? 57))%N; [discriminate |].
  destruct ((97 <=? c) && (c <=? 122))%N eqn:Hl.
  - apply andb_true_iff in Hl. rewrite !N.leb_le in Hl.
    destruct (Z.ltb_spec (Z.of_N c - 87) 10); [lia | reflexivity].
  - destruct ((65 <=? c) && (c <=? 90))%N eqn:Hu; [| reflexivity].
    apply andb_true_iff in Hu. rewrite !N.leb_le in Hu.
    destruct (Z.ltb_spec (Z.of_N c - 55) 10); [lia | reflexivity].
Qed.

Lemma leading_digits_stop (s t : jsstring) (c : N) :
  forallb is_decimal_digit s = true -> is_decimal_digit c = false ->
  leading_digits 10 (s ++ c :: t) = leading_digits 10 s.
Proof.
  intros Hs Hc. induction s as [| d s IH]; simpl.
  - rewrite (not_digit_radix10 c Hc). reflexivity.
  - simpl in Hs. apply andb_true_iff in Hs. destruct Hs as [Hd Hs].
    rewrite (digit_radix10 d Hd), (IH Hs). reflexivity.
Qed.

Lemma strip_prefix_stop (s t : jsstring) (c : N) :
  s <> [] -> forallb is_decimal_digit s = true ->
  c <> 120%N -> c <> 88%N ->
  strip_prefix (s ++ c :: t) = (10, s ++ c :: t).
Proof.
  intros Hne Hs Hx HX. destruct s as [| z [| c' rest]]; [congruence | |].
  - simpl. apply N.eqb_neq in Hx, HX. rewrite Hx, HX, andb_false_r.
    reflexivity.
  - simpl in Hs. rewrite !andb_true_iff in Hs. destruct Hs as (_ & Hc' & _).
    apply digit_bounds in Hc'.
    change ((z :: c' :: rest) ++ c :: t) with (z :: c' :: (rest ++ c :: t)).
    unfold strip_prefix. code_unit_cases.
Qed.

(** The part of [parseInt] after the sign has been read. *)
Lemma parseInt_body (u : jsstring) :
  trim_start u = u ->
  parseInt u =
  let '(R, rest) := strip_prefix (strip_sign u) in
  match leading_digits R rest with
  | [] => NaN
  | ds =>
      if math_int R ds =? 0 then (if sign_of u =? -1 then NegZero else Fin 0)
      else of_integer (sign_of u * math_int R ds)
  end.
Proof. intros Ht. unfold parseInt. rewrite Ht. reflexivity. Qed.

Lemma trim_start_head (c : N) (s : jsstring) :
  is_white_space c = false -> trim_start (c :: s) = c :: s.
Proof. intros H. simpl. rewrite H. reflexivity. Qed.

Lemma sign_not_space (c : N) :
  ((c =? 43) || (c =? 45))%N = true -> is_white_space c = false.
Proof.
  intros H. apply orb_true_iff in H. rewrite !N.eqb_eq in H.
  destruct H as [-> | ->]; reflexivity.
Qed.

(** Text that follows a well-formed integer is not read, unless it turns
    a lone 0 into a [0x] prefix. *)
Lemma parseInt_stops (s t : jsstring) (c : N) :
  well_formed_integer s = true -> is_decimal_digit c = false ->
  c <> 120%N -> c <> 88%N ->
  parseInt (s ++ c :: t) = parseInt s.
Proof.
  intros Hwf Hc Hx HX. destruct s as [| h rest]; [discriminate |].
  unfold well_formed_integer in Hwf.
  destruct ((h =? 43) || (h =? 45))%N eqn:Hsign.
  - destruct rest as [| c' rest']; [discriminate |].
    assert (c' :: rest' <> []) as Hne by discriminate.
    pose proof (sign_not_space h Hsign) as Hws.
    rewrite (parseInt_body (h :: c' :: rest'))
      by (apply trim_start_head; exact Hws).
    change ((h :: c' :: rest') ++ c :: t)
      with (h :: ((c' :: rest') ++ c :: t)).
    rewrite (parseInt_body (h :: _))
      by (apply trim_start_head; exact Hws).
    unfold strip_sign, sign_of. rewrite Hsign.
    rewrite (strip_prefix_stop _ t c Hne Hwf Hx HX).
    rewrite (strip_prefix_all _ Hwf).
    rewrite (leading_digits_stop _ t c Hwf Hc). reflexivity.
  - assert (h :: rest <> []) as Hne by discriminate.
    assert (is_decimal_digit h = true) as Hh.
    { simpl in Hwf. apply andb_true_iff in Hwf. tauto. }
    pose proof (digit_not_space h Hh) as Hws.
    rewrite (parseInt_body (h :: rest))
      by (apply trim_start_head; exact Hws).
    change ((h :: rest) ++ c :: t) with (h :: (rest ++ c :: t)).
    rewrite (parseInt_body (h :: _))
      by (apply trim_start_head; exact Hws).
    unfold strip_sign, sign_of. rewrite Hsign.
    change (h :: rest ++ c :: t) with ((h :: rest) ++ c :: t).
    rewrite (strip_prefix_stop _ t c Hne Hwf Hx HX).
    rewrite (strip_prefix_all _ Hwf).
    rewrite (leading_digits_stop _ t c Hwf Hc). reflexivity.
Qed.

Lemma hex_digit_radix16 (c : N) :
  is_hex_digit c = true -> radix_digit 16 c = Some (hex_digit c).
Proof.
  unfold is_hex_digit, radix_digit, digit_value, hex_digit.
  rewrite !orb_true_iff, !andb_true_iff, !N.leb_le. intros H.
  assert ((48 <= c <= 57) \/ (97 <= c <= 102) \/ (65 <= c <= 70))%N
    as [Hd | [Hl | Hu]] by tauto; code_unit_cases;
    match goal with
    | |- context [?v <? 16] => destruct (Z.ltb_spec v 16); [reflexivity | lia]
    end.
Qed.

Lemma leading_digits_hex (s : jsstring) :
  forallb is_hex_digit s = true ->
  leading_digits 16 s = List.map hex_digit s.
Proof.
  induction s as [| c s IH]; simpl; [reflexivity |].
  rewrite andb_true_iff. intros [Hc Hs].
  rewrite (hex_digit_radix16 c Hc), (IH Hs). reflexivity.
Qed.

Lemma fold_hex (s : jsstring) (acc : Z) :
  fold_left (fun a d => a * 16 + d) (List.map hex_digit s) acc
  = fold_left (fun a c => a * 16 + hex_digit c) s acc.
Proof.
  revert acc. induction s as [| c s IH]; intros acc; simpl;
    [reflexivity | apply IH].
Qed.

Lemma zero_padding_value (s : jsstring) :
  unsigned_value (48%N :: s) = unsigned_value s.
Proof. reflexivity. Qed.

End ReadingFacts.

(** ** Further properties: the strings [toString] gives *)

Module ShapeFacts.
Import NumberFacts StringFacts ToStringFacts.

Lemma rounds_to_zero (x : Z) : 0 < x -> rounds_to 0 x = false.
Proof.
  intros Hx. unfold rounds_to. change (of_integer 0) with (Fin 0).
  apply Z.eqb_neq. lia.
Qed.

(** The value whose digits [toString] writes for [x > 0] is positive. *)
Lemma shortest_positive (j : nat) (x : Z) : 0 < x -> 0 < shortest j x.
Proof.
  intros Hx. induction j as [| j IH]; rewrite shortest_unfold; cbv zeta.
  all: match goal with |- context [10 ^ Z.of_nat ?k] =>
         set (p := 10 ^ Z.of_nat k);
         assert (0 < p) as Hp by (apply Z.pow_pos_nonneg; lia)
       end.
  all: assert (0 <= x / p * p) as Hlo
         by (apply Z.mul_nonneg_nonneg; [apply Z.div_pos; lia | lia]).
  all: assert (rounds_to (x / p * p) x = true -> 0 < x / p * p) as Hnz
         by (intros Hr; destruct (Z.eq_dec (x / p * p) 0) as [E | E];
             [rewrite E, (rounds_to_zero x Hx) in Hr; discriminate | lia]).
  all: destruct (rounds_to (x / p * p) x);
         [specialize (Hnz eq_refl) |];
         destruct (rounds_to (x / p * p + p) x);
         repeat match goal with
           | |- context [if ?b then _ else _] => destruct b
           end; try lia; try exact IH.
Qed.

(** The digits of a positive integer start with a digit from 1 to 9. *)
Lemma positive_first_digit (p : positive) :
  exists d more, decimal (Zpos p) = d :: more /\ (49 <= d <= 57)%N.
Proof.
  simpl. pose proof (to_uint_no_zero_head p) as Hz.
  pose proof (DecimalPos.Unsigned.to_uint_nonnil p) as Hn.
  destruct (Pos.to_uint p) as [| u | u | u | u | u | u | u | u | u | u];
    simpl;
    [ congruence | exfalso; exact (Hz u eq_refl) | .. ];
    eexists; eexists; (split; [reflexivity | lia]).
Qed.

(** The string of a positive Number starts with a digit from 1 to 9. *)
Lemma positive_to_string_first (p : positive) :
  exists d more,
    positive_to_string (Zpos p) = d :: more /\ (49 <= d <= 57)%N.
Proof.
  unfold positive_to_string.
  pose proof (shortest_positive (List.length (decimal (Zpos p)) - 1)
                (Zpos p) eq_refl) as Hv.
  set (v := shortest _ _) in *.
  destruct v as [| q | q]; try (exfalso; lia).
  destruct (positive_first_digit q) as (d & more & Heq & Hd).
  destruct (Z.pos q <? 10 ^ 21).
  - exists d, more. split; assumption.
  - rewrite Heq.
    assert (d <> 48%N) as Hd0 by lia.
    destruct (significant_head d more Hd0) as [more' ->].
    eexists; eexists. split; [reflexivity | exact Hd].
Qed.

(** [toString] never gives the empty string. *)
Lemma toString_nonempty (x : number) : toString x <> [].
Proof.
  destruct x as [| [|] | | [| p | p]]; try discriminate.
  destruct (positive_to_string_first p) as (d & more & Heq & _).
  simpl. rewrite Heq. discriminate.
Qed.


End ShapeFacts.

(** ** Further properties: the loop *)

Module LoopFacts.
Import NumberFacts StringFacts ToStringFacts ScanFacts.

(** From a start of at least -2^53 the loop stops at the integer [m <=
    2^53] whose decimal string is the password, after [m - a + 1]
    iterations, provided every integer from [a] to [m] passes the test
    against the end of the range. *)
Lemma scan_reaches (k : nat) :
  forall (fuel : nat) (i e : number) (a m : Z) (pw : jsstring),
    to_Z i = Some a -> - limit <= a -> a <= m -> m <= limit ->
    decimal m = pw ->
    (forall j x, to_Z j = Some x -> a <= x <= m -> le j e = true) ->
    Z.to_nat (m - a) = k -> (k < fuel)%nat ->
    scan fuel i e pw = Some (true, S k).
Proof.
  induction k as [| k IH]; intros fuel i e a m pw Hi Ha Ham Hm Hd Hle Hk Hfuel;
    (destruct fuel as [| fuel]; [lia |]); simpl scan;
    rewrite (Hle i a Hi) by lia;
    rewrite (toString_to_Z i a Hi) by lia.
  - assert (m = a) as -> by lia.
    apply strict_equal_true in Hd. rewrite Hd. reflexivity.
  - assert (decimal a <> pw) as Hne.
    { rewrite <- Hd. intros E. apply decimal_injective in E. lia. }
    apply strict_equal_false in Hne. rewrite Hne.
    rewrite (increment_to_Z i a Hi) by lia.
    rewrite (IH fuel (Fin (a + 1)) e (a + 1) m pw eq_refl); try lia;
      try assumption; try reflexivity.
    intros j x Hj Hx. apply (Hle j x Hj). lia.
Qed.

Lemma le_finite_end (e : number) (b m : Z) :
  to_Z e = Some b -> m <= b ->
  forall j x, to_Z j = Some x -> x <= m -> le j e = true.
Proof.
  intros He Hmb j x Hj Hx. rewrite (le_to_Z j e x b Hj He).
  apply Z.leb_le. lia.
Qed.

Lemma le_infinite_end (j : number) (x : Z) :
  to_Z j = Some x -> le j (Infinity false) = true.
Proof. destruct j; simpl; congruence. Qed.

(** A loop that ends with [found] true ran [k + 1] times, [i] was within
    the end of the range after [k] increments, and its string is the
    password. *)
Lemma scan_found (fuel : nat) :
  forall (i e : number) (pw : jsstring) (n : nat),
    scan fuel i e pw = Some (true, n) ->
    exists k, n = S k /\ le (after k i) e = true
              /\ toString (after k i) = pw.
Proof.
  induction fuel as [| fuel IH]; intros i e pw n; [discriminate |].
  simpl. destruct (le i e) eqn:Hle; [| discriminate].
  destruct (strict_equal (toString i) pw) eqn:Heq.
  - intros [= <-]. exists 0%nat. apply strict_equal_true in Heq.
    repeat split; assumption.
  - destruct (scan fuel (increment i) e pw) as [[f m] |] eqn:E;
      [| discriminate].
    intros [= -> <-]. destruct (IH _ _ _ _ E) as (k & -> & Hk & Hs).
    exists (S k). unfold after in *. rewrite Nat.iter_succ_r.
    repeat split; assumption.
Qed.

(** A loop never finds a password that no Number has as its string. *)
Lemma scan_no_string (fuel : nat) (i e : number) (pw : jsstring)
  (found : bool) (n : nat) :
  (forall x, toString x <> pw) ->
  scan fuel i e pw = Some (found, n) -> found = false.
Proof.
  intros Hno H. destruct found; [| reflexivity].
  destruct (scan_found fuel i e pw n H) as (k & _ & _ & Hs).
  exfalso. exact (Hno _ Hs).
Qed.

(** -0 as the start or the end of the range acts as 0. *)
Lemma scan_integer_bounds (fuel : nat) :
  forall (i i' e e' : number) (a b : Z) (pw : jsstring),
    to_Z i = Some a -> to_Z i' = Some a ->
    to_Z e = Some b -> to_Z e' = Some b ->
    scan fuel i e pw = scan fuel i' e' pw.
Proof.
  induction fuel as [| fuel IH]; intros i i' e e' a b pw Hi Hi' He He';
    [reflexivity |].
  assert (i = i' \/ (a = 0 /\ toString i = toString i'
                     /\ increment i = increment i')) as Hcase.
  { destruct i as [| s | | z], i' as [| s' | | z']; simpl in Hi, Hi';
      try discriminate.
    - left. reflexivity.
    - assert (z' = 0) as -> by congruence.
      right. split; [congruence | split; reflexivity].
    - assert (z = 0) as -> by congruence.
      right. split; [congruence | split; reflexivity].
    - left. congruence. }
  simpl. rewrite (le_to_Z i e a b Hi He), (le_to_Z i' e' a b Hi' He').
  destruct (a <=? b); [| reflexivity].
  assert (toString i = toString i') as Hs
    by (destruct Hcase as [-> | (_ & H & _)]; [reflexivity | exact H]).
  assert (increment i = increment i') as Hinc
    by (destruct Hcase as [-> | (_ & _ & H)]; [reflexivity | exact H]).
  rewrite Hs, Hinc.
  destruct (strict_equal (toString i') pw); [reflexivity |].
  destruct (to_Z (increment i')) as [a' |] eqn:Hn.
  - rewrite (IH (increment i') (increment i') e e' a' b pw Hn Hn He He').
    reflexivity.
  - clear - Hn He He'. revert Hn. generalize (increment i'). intros j Hj.
    assert (forall f, scan f j e pw = scan f j e' pw) as Hsame.
    { intros f. revert j Hj. induction f as [| f IHf]; intros j Hj;
        [reflexivity |].
      simpl.
      assert (le j e = le j e') as Hle
        by (destruct j as [| [|] | |], e, e'; simpl in *;
            try discriminate; reflexivity).
      rewrite Hle. destruct (le j e'); [| reflexivity].
      destruct (strict_equal (toString j) pw); [reflexivity |].
      assert (to_Z (increment j) = None) as Hj'
        by (destruct j; simpl in *; try discriminate; reflexivity).
      rewrite (IHf _ Hj'). reflexivity. }
    rewrite Hsame. reflexivity.
Qed.

End LoopFacts.

(** ** Further properties: the handler *)

Module OutcomeFacts.
Import NumberFacts StringFacts ToStringFacts ParseIntFacts ScanFacts.
Import PopupFacts ConversionFacts ReadingFacts ShapeFacts LoopFacts.

(** Two documents with the same password whose bounds are read as the
    same Numbers show the same thing. *)
Lemma shown_same_numbers (d1 d2 : document) (fuel : nat) :
  password_value d2 = password_value d1 ->
  parseInt (start_value d2) = parseInt (start_value d1) ->
  parseInt (end_value d2) = parseInt (end_value d1) ->
  shown (on_click fuel d2) = shown (on_click fuel d1).
Proof.
  intros Hp Hs He. unfold on_click. rewrite Hp, Hs, He.
  destruct (isNaN (parseInt (start_value d1)) || isNaN (parseInt (end_value d1)));
    [reflexivity |].
  destruct (scan fuel _ _ _) as [[[|] n] |]; reflexivity.
Qed.

Lemma found_text (fuel : nat) (doc doc' : document) (n : nat) :
  on_click fuel doc = Some (doc', n) ->
  textContent (result doc') = within_range ->
  isNaN (parseInt (start_value doc)) = false
  /\ isNaN (parseInt (end_value doc)) = false
  /\ scan fuel (parseInt (start_value doc)) (parseInt (end_value doc))
       (password_value doc) = Some (true, n).
Proof.
  unfold on_click.
  destruct (isNaN (parseInt (start_value doc))) eqn:Hs;
    [simpl; intros [= <- _] E; vm_compute in E; discriminate |].
  destruct (isNaN (parseInt (end_value doc))) eqn:He;
    [simpl; intros [= <- _] E; vm_compute in E; discriminate |].
  simpl. destruct (scan fuel _ _ _) as [[[|] m] |]; try discriminate.
  - intros [= _ <-] _. repeat split.
  - intros [= <- _] E. vm_compute in E. discriminate.
Qed.

(** A password that is the string of no Number is never found, and is
    reported as not found wherever the loop ends. *)
Lemma unprintable_password (doc : document) :
  (forall x, toString x <> password_value doc) ->
  (forall fuel doc' n,
      on_click fuel doc = Some (doc', n) ->
      textContent (result doc') <> within_range)
  /\ (forall a b fuel,
        to_Z (parseInt (start_value doc)) = Some a ->
        to_Z (parseInt (end_value doc)) = Some b ->
        - limit <= a -> b < limit ->
        (Z.to_nat (b - a + 1) < fuel)%nat ->
        exists doc',
          on_click fuel doc = Some (doc', Z.to_nat (b - a + 1))
          /\ textContent (result doc') = lit "Password NOT in range ?"
          /\ color (result doc') = lit "red").
Proof.
  intros Hno. split.
  - intros fuel doc' n Hrun Htext.
    destruct (found_text fuel doc doc' n Hrun Htext) as (_ & _ & Hscan).
    pose proof (scan_no_string _ _ _ _ _ _ Hno Hscan). discriminate.
  - intros a b fuel Hs He Ha Hb Hfuel.
    apply (written _ doc not_in_range red).
    destruct (on_click_exact doc a b fuel Hs He Ha Hb Hfuel)
      as (found & n & Hrun & _ & Hiff & Hfalse).
    rewrite Hrun. destruct found.
    + exfalso. rewrite on_click_numbers in Hrun by eauto using to_Z_not_NaN.
      destruct (scan fuel _ _ _) as [[f m] |] eqn:E; [| discriminate].
      assert (f = false) as -> by exact (scan_no_string _ _ _ _ _ _ Hno E).
      injection Hrun as Hrun _. vm_compute in Hrun. discriminate.
    + rewrite (Hfalse eq_refl). reflexivity.
Qed.

Lemma parse_exact (z : Z) :
  - limit <= z <= limit -> to_Z (parseInt (decimal z)) = Some z.
Proof.
  intros Hz. rewrite parseInt_decimal, of_integer_exact by exact Hz.
  reflexivity.
Qed.

Lemma parseInt_unread_tail (s t : jsstring) :
  well_formed_integer s = true -> unread_tail t = true ->
  parseInt (s ++ t) = parseInt s.
Proof.
  intros Hwf Ht. destruct t as [| c t]; [rewrite List.app_nil_r; reflexivity |].
  simpl in Ht. rewrite !andb_true_iff, !negb_true_iff in Ht.
  destruct Ht as [[Hc Hx] HX]. apply N.eqb_neq in Hx, HX.
  apply parseInt_stops; assumption.
Qed.

Lemma parseInt_leading_white_space (ws s : jsstring) :
  forallb is_white_space ws = true -> parseInt (ws ++ s) = parseInt s.
Proof.
  intros Hws. unfold parseInt. rewrite (trim_start_white ws s Hws).
  reflexivity.
Qed.

Lemma zero_padded_digits (k : nat) (s : jsstring) :
  s <> [] -> forallb is_decimal_digit s = true ->
  List.repeat 48%N k ++ s <> []
  /\ forallb is_decimal_digit (List.repeat 48%N k ++ s) = true.
Proof.
  intros Hne Hall. induction k as [| k [IH1 IH2]]; simpl.
  - split; assumption.
  - split; [discriminate | exact IH2].
Qed.

Lemma parseInt_zero_padding (k : nat) (s : jsstring) :
  s <> [] -> forallb is_decimal_digit s = true ->
  parseInt (List.repeat 48%N k ++ s) = parseInt s.
Proof.
  intros Hne Hall. induction k as [| k IH]; [reflexivity |].
  destruct (zero_padded_digits k s Hne Hall) as [Hk1 Hk2].
  destruct (zero_padded_digits (S k) s Hne Hall) as [HS1 HS2].
  rewrite (parseInt_unsigned _ HS1 HS2).
  change (List.repeat 48%N (S k) ++ s) with (48%N :: (List.repeat 48%N k ++ s)).
  rewrite zero_padding_value, <- (parseInt_unsigned _ Hk1 Hk2).
  exact IH.
Qed.

Lemma parseInt_hex (x : N) (s : jsstring) :
  x = 120%N \/ x = 88%N -> s <> [] -> forallb is_hex_digit s = true ->
  parseInt (48%N :: x :: s) = of_integer (hex_value s).
Proof.
  intros Hx Hne Hall.
  assert (((48 =? 48) && ((x =? 120) || (x =? 88)))%N = true) as Hpre
    by (destruct Hx as [-> | ->]; reflexivity).
  rewrite parseInt_body by reflexivity.
  change (strip_sign (48%N :: x :: s)) with (48%N :: x :: s).
  unfold strip_prefix. rewrite Hpre.
  rewrite (leading_digits_hex s Hall).
  destruct s as [| c s']; [congruence |].
  change (List.map hex_digit (c :: s'))
    with (hex_digit c :: List.map hex_digit s').
  cbv iota beta.
  change (hex_digit c :: List.map hex_digit s')
    with (List.map hex_digit (c :: s')).
  unfold math_int. rewrite fold_hex. fold (hex_value (c :: s')).
  change (sign_of (48%N :: x :: c :: s')) with 1.
  destruct (Z.eqb_spec (hex_value (c :: s')) 0) as [H0 | H0].
  - rewrite H0. reflexivity.
  - rewrite Z.mul_1_l. reflexivity.
Qed.

Lemma parseInt_blank (s : jsstring) :
  forallb is_white_space s = true -> parseInt s = NaN.
Proof.
  intros Hws. unfold parseInt.
  rewrite <- (List.app_nil_r s), (trim_start_white s [] Hws). reflexivity.
Qed.

(** Rounding to 53 bits never takes a value below a power of two it has
    reached. *)
Lemma round53_reaches (k p : Z) : 53 <= k -> 2 ^ k <= p -> 2 ^ k <= round53 p.
Proof.
  intros Hk Hp. unfold round53.
  assert (0 < 2 ^ k) as Hpk by (apply Z.pow_pos_nonneg; lia).
  assert (0 < p) as Hpos by lia.
  assert (k <= Z.log2 p) as Hlog by (apply Z.log2_le_pow2; assumption).
  destruct (Z.leb_spec (Z.log2 p - 52) 0) as [Hle | Hlt]; [lia |].
  set (sh := Z.log2 p - 52) in *.
  rewrite Z.shiftl_mul_pow2, Z.shiftr_div_pow2 by lia.
  assert (2 ^ 52 * 2 ^ sh <= p) as Hlow.
  { rewrite <- Z.pow_add_r by lia.
    replace (52 + sh) with (Z.log2 p) by (unfold sh; lia).
    apply Z.log2_spec. exact Hpos. }
  assert (0 < 2 ^ sh) as Hsh by (apply Z.pow_pos_nonneg; lia).
  assert (2 ^ 52 <= p / 2 ^ sh) as Hq
    by (apply Z.div_le_lower_bound; [exact Hsh | lia]).
  assert (2 ^ (k - 52) <= 2 ^ sh) as Hks
    by (apply Z.pow_le_mono_r; unfold sh; lia).
  assert (0 < 2 ^ (k - 52)) as Hk52 by (apply Z.pow_pos_nonneg; lia).
  set (q := p / 2 ^ sh) in *.
  assert (2 ^ k <= q * 2 ^ sh) as Hprod.
  { replace k with (52 + (k - 52)) at 1 by lia.
    rewrite Z.pow_add_r by lia.
    apply Z.mul_le_mono_nonneg; lia. }
  apply Z.le_trans with (q * 2 ^ sh); [exact Hprod |].
  apply Z.mul_le_mono_nonneg_r; [lia |].
  destruct ((2 ^ (sh - 1) <? p mod 2 ^ sh)
            || ((p mod 2 ^ sh =? 2 ^ (sh - 1)) && Z.odd q)); lia.
Qed.

(** An integer of 2^1024 or more is too large for a Number: it becomes
    +Infinity. *)
Lemma of_integer_overflow (v : Z) : 2 ^ 1024 <= v -> of_integer v = Infinity false.
Proof.
  intros Hv.
  assert (0 < 2 ^ 1024) as Hp by (apply Z.pow_pos_nonneg; lia).
  unfold of_integer. rewrite Z.abs_eq by lia.
  pose proof (round53_reaches 1024 v ltac:(lia) Hv) as Hr.
  destruct (Z.leb_spec (2 ^ 1024) (round53 v)); [| lia].
  destruct (Z.ltb_spec v 0); [lia | reflexivity].
Qed.

End OutcomeFacts.

(** ** Further properties of the handler *)

Import ConversionFacts ReadingFacts ShapeFacts LoopFacts OutcomeFacts.

(** X1.  The two conversions of the handler are inverse on exact
    integers: [parseInt] reads the decimal string of any integer [z] back
    to the Number for [z], so [parseInt(i.toString())] is [i] for every
    integer [i] from -2^53 to 2^53. *)
Theorem parseInt_reads_back_toString (z : Z) :
  parseInt (decimal z) = of_integer z
  /\ (- limit <= z <= limit -> parseInt (toString (Fin z)) = Fin z).
Proof.
  split; [apply parseInt_decimal |].
  intros Hz. rewrite (toString_to_Z (Fin z) z eq_refl Hz).
  rewrite parseInt_decimal. apply of_integer_exact. exact Hz.
Qed.

Lemma parseInt_reads_back_toString_witness :
  parseInt (toString (Fin (-42))) = Fin (-42).
Proof.
  apply (parseInt_reads_back_toString (-42)).
  vm_compute. split; discriminate.
Defined.

(** X2.  When the three fields hold the decimal strings of integers [z]
    (password), [a] (start) and [b] (end), with [a] and [b] between -2^53
    and 2^53 and [b] below 2^53, the handler ends; when [a <= z <= b] it
    leaves "Password is within range ?" in "green" after [z - a + 1]
    iterations, and otherwise "Password NOT in range ?" in "red" after
    one iteration per integer of the range. *)
Theorem canonical_fields_decide_membership (z a b : Z) (fuel : nat) :
  - limit <= a <= limit -> - limit <= b < limit ->
  (Z.to_nat (b - a + 1) < fuel)%nat ->
  exists doc',
    on_click fuel (canonical z a b)
    = Some (doc', if (a <=? z) && (z <=? b) then Z.to_nat (z - a + 1)
                  else Z.to_nat (b - a + 1))
    /\ textContent (result doc')
       = (if (a <=? z) && (z <=? b) then lit "Password is within range ?"
          else lit "Password NOT in range ?")
    /\ color (result doc')
       = (if (a <=? z) && (z <=? b) then lit "green" else lit "red").
Proof.
  intros Ha Hb Hfuel.
  assert (to_Z (parseInt (start_value (canonical z a b))) = Some a) as Hs
    by (apply parse_exact; exact Ha).
  assert (to_Z (parseInt (end_value (canonical z a b))) = Some b) as He
    by (apply parse_exact; lia).
  destruct ((a <=? z) && (z <=? b)) eqn:Hin.
  - apply andb_true_iff in Hin. rewrite !Z.leb_le in Hin.
    apply (written _ (canonical z a b) within_range green).
    rewrite on_click_numbers by eauto using to_Z_not_NaN.
    rewrite (scan_reaches _ fuel _ _ a z (decimal z) Hs) by
      (try reflexivity; try lia;
       intros j x Hj Hx;
       exact (le_finite_end _ b z He ltac:(lia) j x Hj ltac:(lia))).
    replace (S (Z.to_nat (z - a))) with (Z.to_nat (z - a + 1)) by lia.
    reflexivity.
  - apply (written _ (canonical z a b) not_in_range red).
    destruct (on_click_exact _ a b fuel Hs He) as
      (found & n & Hrun & _ & Hiff & Hfalse); try lia.
    rewrite Hrun. destruct found.
    + destruct (proj1 Hiff eq_refl) as (i & Hi & Hd).
      apply decimal_injective in Hd. subst i.
      apply andb_false_iff in Hin. rewrite !Z.leb_gt in Hin. lia.
    + rewrite (Hfalse eq_refl). reflexivity.
Qed.

Lemma canonical_fields_decide_membership_witness :
  exists doc',
    on_click 30 (canonical 7 (-3) 20) = Some (doc', 11%nat)
    /\ textContent (result doc') = lit "Password is within range ?"
    /\ color (result doc') = lit "green".
Proof.
  apply (canonical_fields_decide_membership 7 (-3) 20 30).
  - vm_compute. split; discriminate.
  - vm_compute. split; [discriminate | reflexivity].
  - vm_compute. lia.
Defined.

(** X3.  The loop stops at the match: when start and end parse to
    integers [a] and [b] with [-2^53 <= a] and the password is the
    decimal string of an integer [i <= 2^53] of [[a, b]], the handler
    ends after exactly [i - a + 1] iterations and leaves "Password is
    within range ?" in "green". *)
Theorem first_match_iteration_count (doc : document) (a b i : Z) (fuel : nat) :
  to_Z (parseInt (start_value doc)) = Some a ->
  to_Z (parseInt (end_value doc)) = Some b ->
  - limit <= a ->
  a <= i <= b -> i <= limit -> decimal i = password_value doc ->
  (Z.to_nat (i - a) < fuel)%nat ->
  exists doc',
    on_click fuel doc = Some (doc', Z.to_nat (i - a + 1))
    /\ textContent (result doc') = lit "Password is within range ?"
    /\ color (result doc') = lit "green".
Proof.
  intros Hs He Ha Hi Hlim Hd Hfuel.
  apply (written _ doc within_range green).
  rewrite on_click_numbers by eauto using to_Z_not_NaN.
  rewrite (scan_reaches _ fuel _ _ a i (password_value doc) Hs) by
    (try reflexivity; try assumption; try lia;
     intros j x Hj Hx;
     exact (le_finite_end _ b i He ltac:(lia) j x Hj ltac:(lia))).
  replace (S (Z.to_nat (i - a))) with (Z.to_nat (i - a + 1)) by lia.
  reflexivity.
Qed.

Lemma first_match_iteration_count_witness :
  exists doc',
    on_click 5 (typed "5" "1" "10") = Some (doc', Z.to_nat (5 - 1 + 1))
    /\ textContent (result doc') = lit "Password is within range ?"
    /\ color (result doc') = lit "green".
Proof.
  apply (first_match_iteration_count (typed "5" "1" "10") 1 10 5 5).
  - reflexivity.
  - reflexivity.
  - vm_compute. discriminate.
  - lia.
  - vm_compute. discriminate.
  - reflexivity.
  - vm_compute. lia.
Defined.

(** X4.  Found is never reported without a match, whatever the bounds:
    when a run ends on the found message after [n] iterations, [n] is
    [k + 1] for some [k], the value of [i] after [k] increments from the
    parsed start is within the parsed end, and its [toString()] is the
    password. *)
Theorem found_is_sound (fuel : nat) (doc doc' : document) (n : nat) :
  on_click fuel doc = Some (doc', n) ->
  textContent (result doc') = within_range ->
  exists k,
    n = S k
    /\ le (after k (parseInt (start_value doc))) (parseInt (end_value doc))
       = true
    /\ toString (after k (parseInt (start_value doc))) = password_value doc.
Proof.
  intros Hrun Htext.
  destruct (found_text fuel doc doc' n Hrun Htext) as (_ & _ & Hscan).
  exact (scan_found _ _ _ _ _ Hscan).
Qed.

Lemma found_is_sound_witness :
  exists k,
    5%nat = S k
    /\ le (after k (parseInt (start_value (typed "5" "1" "10"))))
         (parseInt (end_value (typed "5" "1" "10"))) = true
    /\ toString (after k (parseInt (start_value (typed "5" "1" "10"))))
       = password_value (typed "5" "1" "10").
Proof.
  apply (found_is_sound 11 (typed "5" "1" "10")
           (set_result (typed "5" "1" "10") within_range green) 5).
  - vm_compute. reflexivity.
  - reflexivity.
Defined.

(** X5.  An empty password is never found: no run ends with "Password is
    within range ?" in the result element, and when start and end parse
    to integers [a] and [b] with [-2^53 <= a] and [b < 2^53] the handler
    scans the whole range and leaves "Password NOT in range ?" in
    "red". *)
Theorem empty_password_not_found (doc : document) :
  password_value doc = [] ->
  (forall fuel doc' n,
      on_click fuel doc = Some (doc', n) ->
      textContent (result doc') <> lit "Password is within range ?")
  /\ (forall a b fuel,
        to_Z (parseInt (start_value doc)) = Some a ->
        to_Z (parseInt (end_value doc)) = Some b ->
        - limit <= a -> b < limit ->
        (Z.to_nat (b - a + 1) < fuel)%nat ->
        exists doc',
          on_click fuel doc = Some (doc', Z.to_nat (b - a + 1))
          /\ textContent (result doc') = lit "Password NOT in range ?"
          /\ color (result doc') = lit "red").
Proof.
  intros Hpw. apply unprintable_password.
  intros x. rewrite Hpw. apply toString_nonempty.
Qed.

Lemma empty_password_not_found_witness :
  exists doc',
    on_click 11 (typed "" "1" "10") = Some (doc', Z.to_nat (10 - 1 + 1))
    /\ textContent (result doc') = lit "Password NOT in range ?"
    /\ color (result doc') = lit "red".
Proof.
  apply (proj2 (empty_password_not_found (typed "" "1" "10") eq_refl)
           1 10 11%nat).
  - reflexivity.
  - reflexivity.
  - vm_compute. discriminate.
  - reflexivity.
  - vm_compute. lia.
Defined.

(** X6.  White space in front of start or end is not read: a document
    whose bounds carry leading white space shows what the document
    without it shows. *)
Theorem leading_white_space_ignored
  (d1 d2 : document) (ws1 ws2 : jsstring) (fuel : nat) :
  forallb is_white_space ws1 = true ->
  forallb is_white_space ws2 = true ->
  password_value d2 = password_value d1 ->
  start_value d2 = ws1 ++ start_value d1 ->
  end_value d2 = ws2 ++ end_value d1 ->
  shown (on_click fuel d2) = shown (on_click fuel d1).
Proof.
  intros H1 H2 Hp Hs He. apply shown_same_numbers; [exact Hp | |].
  - rewrite Hs. apply parseInt_leading_white_space. exact H1.
  - rewrite He. apply parseInt_leading_white_space. exact H2.
Qed.

Lemma leading_white_space_ignored_witness :
  shown (on_click 11 (typed "5" "  1" " 10"))
  = shown (on_click 11 (typed "5" "1" "10")).
Proof.
  apply (leading_white_space_ignored (typed "5" "1" "10")
           (typed "5" "  1" " 10") (lit "  ") (lit " ") 11);
    reflexivity.
Defined.

(** X7.  Text after a well-formed integer in start or end is not read,
    provided it starts with a code unit other than a decimal digit, [x]
    and [X]: a document whose bounds carry such a tail shows what the
    document without it shows. *)
Theorem trailing_text_ignored
  (d1 d2 : document) (t1 t2 : jsstring) (fuel : nat) :
  well_formed_integer (start_value d1) = true ->
  well_formed_integer (end_value d1) = true ->
  unread_tail t1 = true -> unread_tail t2 = true ->
  password_value d2 = password_value d1 ->
  start_value d2 = start_value d1 ++ t1 ->
  end_value d2 = end_value d1 ++ t2 ->
  shown (on_click fuel d2) = shown (on_click fuel d1).
Proof.
  intros W1 W2 T1 T2 Hp Hs He. apply shown_same_numbers; [exact Hp | |].
  - rewrite Hs. apply parseInt_unread_tail; assumption.
  - rewrite He. apply parseInt_unread_tail; assumption.
Qed.

Lemma trailing_text_ignored_witness :
  shown (on_click 11 (typed "5" "1.9" "10px"))
  = shown (on_click 11 (typed "5" "1" "10")).
Proof.
  apply (trailing_text_ignored (typed "5" "1" "10")
           (typed "5" "1.9" "10px") (lit ".9") (lit "px") 11);
    reflexivity.
Defined.

(** X8.  A bound written as [0x] or [0X] and hexadecimal digits is read
    in base 16: [parseInt] gives the Number for the base-16 value of the
    digits, the same Number as for that value written in decimal. *)
Theorem hex_prefix_read_in_base_16 (x : N) (s : jsstring) :
  x = 120%N \/ x = 88%N -> s <> [] -> forallb is_hex_digit s = true ->
  parseInt (48%N :: x :: s) = of_integer (hex_value s)
  /\ parseInt (48%N :: x :: s) = parseInt (decimal (hex_value s)).
Proof.
  intros Hx Hne Hall. rewrite parseInt_decimal.
  split; apply parseInt_hex; assumption.
Qed.

Lemma hex_prefix_read_in_base_16_witness :
  parseInt (lit "0x1F") = of_integer 31
  /\ parseInt (lit "0x1F") = parseInt (decimal 31).
Proof.
  apply (hex_prefix_read_in_base_16 120%N (lit "1F")).
  - left. reflexivity.
  - discriminate.
  - reflexivity.
Defined.

(** X9.  When [i++] leaves the parsed start unchanged (it does at 2^53,
    for one) and the start is within the end, the handler ends after one
    iteration with "Password is within range ?" in "green" if the
    password is the start's [toString()], and otherwise never ends. *)
Theorem unchanged_start_finds_or_hangs (doc : document) :
  isNaN (parseInt (start_value doc)) = false ->
  isNaN (parseInt (end_value doc)) = false ->
  le (parseInt (start_value doc)) (parseInt (end_value doc)) = true ->
  increment (parseInt (start_value doc)) = parseInt (start_value doc) ->
  (toString (parseInt (start_value doc)) = password_value doc ->
   forall fuel,
   exists doc',
     on_click (S fuel) doc = Some (doc', 1%nat)
     /\ textContent (result doc') = lit "Password is within range ?"
     /\ color (result doc') = lit "green")
  /\ (toString (parseInt (start_value doc)) <> password_value doc ->
      forall fuel, on_click fuel doc = None).
Proof.
  intros Hs He Hle Hinc. split.
  - intros Heq fuel. apply (written _ doc within_range green).
    rewrite on_click_numbers by assumption.
    simpl scan. rewrite Hle.
    apply strict_equal_true in Heq. rewrite Heq. reflexivity.
  - intros Hne. apply strict_equal_false in Hne.
    apply on_click_stuck; assumption.
Qed.

Lemma unchanged_start_finds_or_hangs_witness :
  exists doc',
    on_click 1
      (typed "9007199254740992" "9007199254740992" "9007199254740999")
    = Some (doc', 1%nat)
    /\ textContent (result doc') = lit "Password is within range ?"
    /\ color (result doc') = lit "green".
Proof.
  apply (unchanged_start_finds_or_hangs
           (typed "9007199254740992" "9007199254740992" "9007199254740999")).
  - reflexivity.
  - reflexivity.
  - vm_compute. reflexivity.
  - vm_compute. reflexivity.
  - vm_compute. reflexivity.
Defined.

(** X10.  An end written with digits only and worth 2^1024 or more is too
    large for a Number: it is read as +Infinity and bounds nothing.  When
    start parses to an integer [a >= -2^53] and the password is the
    decimal string of an integer [i] with [a <= i <= 2^53], the handler
    ends after [i - a + 1] iterations and leaves "Password is within
    range ?" in "green". *)
Theorem overflowing_end_is_no_bound (doc : document) (a i : Z) (fuel : nat) :
  to_Z (parseInt (start_value doc)) = Some a ->
  end_value doc <> [] ->
  forallb is_decimal_digit (end_value doc) = true ->
  2 ^ 1024 <= unsigned_value (end_value doc) ->
  - limit <= a -> a <= i -> i <= limit ->
  decimal i = password_value doc ->
  (Z.to_nat (i - a) < fuel)%nat ->
  parseInt (end_value doc) = Infinity false
  /\ exists doc',
       on_click fuel doc = Some (doc', Z.to_nat (i - a + 1))
       /\ textContent (result doc') = lit "Password is within range ?"
       /\ color (result doc') = lit "green".
Proof.
  intros Hs Hne Hdig Hbig Ha Hai Hlim Hd Hfuel.
  assert (parseInt (end_value doc) = Infinity false) as He.
  { rewrite (parseInt_unsigned _ Hne Hdig).
    apply of_integer_overflow. exact Hbig. }
  split; [exact He |].
  apply (written _ doc within_range green).
  rewrite on_click_numbers
    by (try (rewrite He; reflexivity); eauto using to_Z_not_NaN).
  rewrite He.
  rewrite (scan_reaches _ fuel _ _ a i (password_value doc) Hs) by
    (try reflexivity; try assumption; try lia;
     intros j x Hj _; exact (le_infinite_end j x Hj)).
  replace (S (Z.to_nat (i - a))) with (Z.to_nat (i - a + 1)) by lia.
  reflexivity.
Qed.

Lemma overflowing_end_is_no_bound_witness :
  let doc := {| password_value := lit "5";
                start_value := lit "1";
                end_value := List.repeat 57%N 400;
                result := {| textContent := []; color := [] |} |} in
  parseInt (end_value doc) = Infinity false
  /\ exists doc',
       on_click 5 doc = Some (doc', Z.to_nat (5 - 1 + 1))
       /\ textContent (result doc') = lit "Password is within range ?"
       /\ color (result doc') = lit "green".
Proof.
  cbv zeta.
  apply (overflowing_end_is_no_bound _ 1 5 5).
  - reflexivity.
  - vm_compute. discriminate.
  - vm_compute. reflexivity.
  - vm_compute. discriminate.
  - vm_compute. discriminate.
  - lia.
  - vm_compute. discriminate.
  - reflexivity.
  - vm_compute. lia.
Defined.

(** X11.  Widening the range keeps a match: when a run on bounds that
    parse to integers [a1] and [b1] ends with "Password is within
    range ?" in the result element, and another document has the same
    password and bounds that parse to [a2 <= a1] and [b2 >= b1] with
    [-2^53 <= a2] and [b2 < 2^53], the run on that document ends and
    leaves "Password is within range ?" in "green" too. *)
Theorem wider_range_keeps_found
  (d1 d2 d1' : document) (a1 b1 a2 b2 : Z) (f1 f2 n1 : nat) :
  password_value d2 = password_value d1 ->
  to_Z (parseInt (start_value d1)) = Some a1 ->
  to_Z (parseInt (end_value d1)) = Some b1 ->
  to_Z (parseInt (start_value d2)) = Some a2 ->
  to_Z (parseInt (end_value d2)) = Some b2 ->
  a2 <= a1 -> b1 <= b2 -> - limit <= a2 -> b2 < limit ->
  on_click f1 d1 = Some (d1', n1) ->
  textContent (result d1') = lit "Password is within range ?" ->
  (Z.to_nat (b2 - a2 + 1) < f2)%nat ->
  exists d2' n2,
    on_click f2 d2 = Some (d2', n2)
    /\ textContent (result d2') = lit "Password is within range ?"
    /\ color (result d2') = lit "green".
Proof.
  intros Hp Hs1 He1 Hs2 He2 Ha Hb Hlo Hhi Hrun Htext Hfuel.
  destruct (found_text f1 d1 d1' n1 Hrun Htext) as (_ & _ & Hscan).
  assert (in_range a1 b1 (password_value d1)) as (i & Hi & Hd).
  { assert (Z.to_nat (b1 - a1 + 1) < Nat.max f1 (S (Z.to_nat (b1 - a1 + 1))))%nat
      as Hbig by lia.
    destruct (scan_exact _ _ _ _ a1 b1 (password_value d1) Hs1 He1
                ltac:(lia) ltac:(lia) eq_refl Hbig)
      as (found & n & Hs & _ & Hiff & _).
    pose proof (scan_more_fuel _ _ _ _ _ Hscan _
                  (Nat.le_max_l f1 (S (Z.to_nat (b1 - a1 + 1))))) as Hs'.
    rewrite Hs in Hs'. injection Hs' as -> _. apply Hiff. reflexivity. }
  destruct (on_click_exact d2 a2 b2 f2 Hs2 He2 Hlo Hhi Hfuel)
    as (found & n2 & Hrun2 & _ & Hiff & _).
  assert (found = true) as ->.
  { apply Hiff. rewrite Hp. exists i. split; [lia | exact Hd]. }
  destruct (written _ d2 within_range green n2 Hrun2)
    as (d2' & Hr & Ht & Hc).
  exists d2', n2. repeat split; assumption.
Qed.

Lemma wider_range_keeps_found_witness :
  exists d2' n2,
    on_click 30 (typed "5" "-3" "20") = Some (d2', n2)
    /\ textContent (result d2') = lit "Password is within range ?"
    /\ color (result d2') = lit "green".
Proof.
  apply (wider_range_keeps_found (typed "5" "4" "6") (typed "5" "-3" "20")
           (set_result (typed "5" "4" "6") within_range green)
           4 6 (-3) 20 5 30 2).
  - reflexivity.
  - reflexivity.
  - reflexivity.
  - reflexivity.
  - reflexivity.
  - lia.
  - lia.
  - vm_compute. discriminate.
  - reflexivity.
  - vm_compute. reflexivity.
  - reflexivity.
  - vm_compute. lia.
Defined.

(** X12.  A second click changes nothing: the handler reads only the three
    fields, which it leaves as they are, so run on the document a first
    run left it ends the same way and leaves that document as it is. *)
Theorem second_click_changes_nothing
  (fuel : nat) (doc doc' : document) (n : nat) :
  on_click fuel doc = Some (doc', n) ->
  on_click fuel doc' = Some (doc', n).
Proof.
  intros Hrun.
  assert (forall t c, on_click fuel (set_result doc t c) = on_click fuel doc)
    as Hsame by (intros t c; reflexivity).
  destruct (on_click_outcome fuel doc doc' n Hrun) as [-> | [-> | ->]];
    rewrite Hsame; exact Hrun.
Qed.

Lemma second_click_changes_nothing_witness :
  on_click 11 (set_result (typed "5" "1" "10") within_range green)
  = Some (set_result (typed "5" "1" "10") within_range green, 5%nat).
Proof.
  apply (second_click_changes_nothing 11 (typed "5" "1" "10")).
  vm_compute. reflexivity.
Defined.

(** X13.  Zeros in front of an unsigned start or end do not matter (in
    the password they do): a document whose bounds are padded with
    leading zeros shows what the document without them shows. *)
Theorem zero_padded_bounds_read_alike
  (d1 d2 : document) (k1 k2 : nat) (fuel : nat) :
  start_value d1 <> [] -> forallb is_decimal_digit (start_value d1) = true ->
  end_value d1 <> [] -> forallb is_decimal_digit (end_value d1) = true ->
  password_value d2 = password_value d1 ->
  start_value d2 = List.repeat 48%N k1 ++ start_value d1 ->
  end_value d2 = List.repeat 48%N k2 ++ end_value d1 ->
  shown (on_click fuel d2) = shown (on_click fuel d1).
Proof.
  intros N1 D1 N2 D2 Hp Hs He. apply shown_same_numbers; [exact Hp | |].
  - rewrite Hs. apply parseInt_zero_padding; assumption.
  - rewrite He. apply parseInt_zero_padding; assumption.
Qed.

Lemma zero_padded_bounds_read_alike_witness :
  shown (on_click 11 (typed "5" "001" "010"))
  = shown (on_click 11 (typed "5" "1" "10")).
Proof.
  apply (zero_padded_bounds_read_alike (typed "5" "1" "10")
           (typed "5" "001" "010") 2 1 11);
    try reflexivity; discriminate.
Defined.



(** X15.  Finite bounds count by their integer value, so -0 acts as 0:
    two documents with the same password whose starts parse to the same
    integer and whose ends parse to the same integer show the same
    thing, whether a zero was read as +0 or as -0. *)
Theorem bounds_count_by_integer_value
  (d1 d2 : document) (a b : Z) (fuel : nat) :
  password_value d2 = password_value d1 ->
  to_Z (parseInt (start_value d1)) = Some a ->
  to_Z (parseInt (start_value d2)) = Some a ->
  to_Z (parseInt (end_value d1)) = Some b ->
  to_Z (parseInt (end_value d2)) = Some b ->
  shown (on_click fuel d2) = shown (on_click fuel d1).
Proof.
  intros Hp Hs1 Hs2 He1 He2.
  rewrite !on_click_numbers by eauto using to_Z_not_NaN.
  rewrite Hp.
  rewrite (scan_integer_bounds fuel _ _ _ _ a b (password_value d1)
             Hs2 Hs1 He2 He1).
  destruct (scan fuel _ _ _) as [[[|] n] |]; reflexivity.
Qed.

Lemma bounds_count_by_integer_value_witness :
  shown (on_click 11 (typed "0" "-0" "3"))
  = shown (on_click 11 (typed "0" "0" "3")).
Proof.
  apply (bounds_count_by_integer_value (typed "0" "0" "3")
           (typed "0" "-0" "3") 0 3 11);
    reflexivity.
Defined.

(** X16.  An empty start or end, or one made of white space only, is an
    invalid range: the handler leaves "Invalid range" in "red" in the
    result element without running the loop, whatever the other two
    fields hold. *)
Theorem blank_bound_is_invalid (doc : document) (fuel : nat) :
  forallb is_white_space (start_value doc) = true
  \/ forallb is_white_space (end_value doc) = true ->
  exists doc',
    on_click fuel doc = Some (doc', 0%nat)
    /\ textContent (result doc') = lit "Invalid range"
    /\ color (result doc') = lit "red".
Proof.
  intros H. apply (written _ doc invalid_range red). unfold on_click.
  destruct H as [H | H]; rewrite (parseInt_blank _ H);
    [| rewrite orb_true_r]; reflexivity.
Qed.

Lemma blank_bound_is_invalid_witness :
  exists doc',
    on_click 0 (typed "5" "1" "  ") = Some (doc', 0%nat)
    /\ textContent (result doc') = lit "Invalid range"
    /\ color (result doc') = lit "red".
Proof.
  apply (blank_bound_is_invalid (typed "5" "1" "  ") 0).
  right. reflexivity.
Defined.
